(** * Contexture OCS service: topology extraction, snapshot storage and
      context assembly (pkg/ocs)

    A shallow embedding of the Go package [pkg/ocs] and the properties of
    its adjacency extractor, topology repository, context assembler and
    request validation.

    Conventions of the embedding:
    - a Go [map[string]T] is a [gmap string T]; reading a missing key gives
      the zero value of [T], as in Go;
    - a Go slice is a [list]; the nil slice and the empty slice are both
      [[]] (the code only ever asks for their length or ranges over them);
    - a Go [int] that counts elements held in memory is a [Z] without
      wrap-around: a sum of lengths of slices that exist in memory stays
      far below [2^63];
    - a [time.Time] is the instant, in nanoseconds since the Unix epoch,
      that its seconds and nanoseconds fields denote; [time.Unix] and
      [Time.Unix] wrap around in [int64] as in Go;
    - Go leaves the iteration order of [range] over a map unspecified:
      every [range] over a map goes through [go_range], an arbitrary
      enumeration of the map's entries (class [RangeOrder]); the
      properties below hold for every such enumeration;
    - what leaves the process (queries to Prometheus, operations on the
      MongoDB collection) is recorded in a trace and answered by the
      oracles of class [Env]; the collection is the list of the documents
      inserted so far. *)

From Stdlib Require Import ZArith.
From stdpp Require Import gmap strings list fin_maps sorting pretty.

Set Warnings "-clear-no-such-hyp".


(** ** Go values *)

(** A value of type [interface{}] as it occurs in this package: numbers
    and strings of a decoded JSON document, and the [int64] of
    [time.Now().Unix()]. *)
Inductive Any : Type :=
  | AnyInt64 (n : Z)
  | AnyNumber (literal : string)
  | AnyString (s : string).

Abbreviation Time := Z.

(** [m[k]] on a [map[string]string]: the empty string when [k] is absent. *)
Definition label (m : gmap string string) (k : string) : string :=
  default "" (m !! k).

(** [m[k]] on a [map[string][]string]: the nil slice when [k] is absent. *)
Definition slice_at (m : gmap string (list string)) (k : string) : list string :=
  default [] (m !! k).

(** [s == nil] and [len(s) == 0] coincide in the embedding. *)
Definition is_nil {A} (s : list A) : bool :=
  match s with [] => true | _ :: _ => false end.

(** Iteration order of [range] over a map. *)
Class RangeOrder := {
  go_range : ∀ {A : Type}, gmap string A → list (string * A);
  go_range_perm : ∀ (A : Type) (m : gmap string A), go_range m ≡ₚ map_to_list m
}.

(** ** types.go *)

Record MetricConfig := {
  Name : string;
  Type_ : string;
  Unit : string;
  Description : string;
  AggregationLogic : string;
  HealthConfig : gmap string Any
}.

Record OCSConfig := {
  Policy : list string;
  Metrics : list MetricConfig;
  Workload : list string;
  TimeWindowMinutes : option Z
}.

(** One element of [PrometheusQueryResult.Data.Result]. *)
Record InstantSample := {
  Metric : gmap string string;
  Value : list Any
}.

Record PrometheusQueryResult := {
  Status : string;
  ResultType : string;
  Result : list InstantSample
}.

(** One element of [PrometheusQueryRangeResult.Data.Result]. *)
Record RangeSeries := {
  RMetric : gmap string string;
  Values : list (list Any)
}.

Record PrometheusQueryRangeResult := {
  RStatus : string;
  RResultType : string;
  RResult : list RangeSeries
}.

(** ** istio_connector.go: ExtractAdjacencyList *)

(** The inner loop of [ExtractAdjacencyList]:
    [for _, dest := range adjacencyList[source]] with [exists = true; break]
    at the first [dest == destination]. *)
Fixpoint contains (dests : list string) (destination : string) : bool :=
  match dests with
  | [] => false
  | dest :: rest =>
      if bool_decide (dest = destination) then true
      else contains rest destination
  end.

(** The body of the outer loop, for one result entry [r]. *)
Definition extract_step (adjacencyList : gmap string (list string))
    (r : InstantSample) : gmap string (list string) :=
  let source := label (Metric r) "source_workload" in
  let destination := label (Metric r) "destination_workload" in
  if bool_decide (source ≠ "") && bool_decide (destination ≠ "") then
    let adjacencyList :=
      if is_nil (slice_at adjacencyList source)
      then <[source := []]> adjacencyList
      else adjacencyList in
    let exists_ := contains (slice_at adjacencyList source) destination in
    if negb exists_
    then <[source := slice_at adjacencyList source ++ [destination]]> adjacencyList
    else adjacencyList
  else adjacencyList.

Definition ExtractAdjacencyList (result : PrometheusQueryResult)
    : gmap string (list string) :=
  foldl extract_step ∅ (Result result).

(** An entry [r] carries the edge [source -> destination]: both labels are
    there and not empty. *)
Definition carries_edge (r : InstantSample) (source destination : string) : Prop :=
  Metric r !! "source_workload" = Some source ∧
  Metric r !! "destination_workload" = Some destination ∧
  source ≠ "" ∧ destination ≠ "".

(** ** istio_connector.go: convertRangeToInstantResult *)

(** Byte-wise order on strings, the order in which [fmt] prints the keys
    of a map. *)
Definition key_le (x y : string * string) : Prop :=
  Is_true (String.leb x.1 y.1).

Global Instance key_le_dec x y : Decision (key_le x y) := _.

(** [fmt.Sprintf("%v", m)] for [m : map[string]string]: the entries in
    key order, each as [key:value], separated by one space, between
    [map[] and []]. *)
Definition Sprintf_v (m : gmap string string) : string :=
  "map[" +:+
  String.concat " "
    ((λ kv : string * string, kv.1 +:+ ":" +:+ kv.2)
       <$> merge_sort key_le (map_to_list m)) +:+
  "]".

(** The first loop: [uniqueMetrics[metricKey]] is set for the first
    series of each key. The model keeps the struct's [Metric] field; its
    [Seen] field is the constant [true] and never read. *)
Definition unique_step (uniqueMetrics : gmap string (gmap string string))
    (r : RangeSeries) : gmap string (gmap string string) :=
  let metricKey := Sprintf_v (RMetric r) in
  match uniqueMetrics !! metricKey with
  | Some _ => uniqueMetrics
  | None => <[metricKey := RMetric r]> uniqueMetrics
  end.

Definition uniqueMetrics_of (rangeResult : PrometheusQueryRangeResult)
    : gmap string (gmap string string) :=
  foldl unique_step ∅ (RResult rangeResult).

(** Two label sets that differ and that [fmt] prints alike: in the first
    the text [source_workload:app] is part of a label value, in the second
    it is a label of its own. *)
Definition labels_joined : gmap string string :=
  {[ "destination_workload" := "db source_workload:app" ]}.

Definition labels_split : gmap string string :=
  <[ "source_workload" := "app" ]> {[ "destination_workload" := "db" ]}.

(** A ranged response with one series for each of them. *)
Definition colliding_response : PrometheusQueryRangeResult :=
  {| RStatus := "success";
     RResultType := "matrix";
     RResult :=
       [ {| RMetric := labels_joined;
            Values := [[AnyNumber "1700000000"; AnyString "3"]] |};
         {| RMetric := labels_split;
            Values := [[AnyNumber "1700000000"; AnyString "7"]] |} ] |}.

(** ** The world the service talks to *)

Abbreviation ObjectID := N.
Definition NilObjectID : N := 0%N.

Record AdjacencyListDocument := {
  ID : N;
  AdjacencyList : gmap string (list string);
  Timestamp : Z;
  SourceCount : Z;
  TotalConnections : Z
}.

(** What an HTTP request to Prometheus comes to. *)
Inductive HttpReply (A : Type) : Type :=
  | NewRequestError (err : string)
  | DoError (err : string)
  | Replied (statusCode : Z) (body : string) (decoded : string + A).
Arguments NewRequestError {A} err.
Arguments DoError {A} err.
Arguments Replied {A} statusCode body decoded.

(** Every operation that leaves the process. *)
Inductive Event : Type :=
  | PrometheusQuery (query : string)
  | PrometheusQueryRange (query : string) (start end_ : Z) (step : string)
  | MongoFindOne
  | MongoInsertOne (doc : AdjacencyListDocument).

(** What the outside answers. The oracles are indexed by the number of
    operations that left the process before. [env_find_pick] is the
    document store's choice among the documents that share the greatest
    sort key: [FindOne] sorts on [timestamp] alone, and a sort on a key
    with equal values leaves their relative order to the server. *)
Class Env := {
  env_clock : nat → Z;
  env_object_id : nat → N;
  env_prometheus_instant : nat → string → HttpReply PrometheusQueryResult;
  env_prometheus_range :
    nat → string → Z → Z → string → HttpReply PrometheusQueryRangeResult;
  env_mongo_error : nat → option string;
  env_find_pick : nat → nat
}.

(** Functions of Go's standard library whose code is not part of the
    package. *)
Class GoLib := {
  time_Parse_RFC3339 : string → option Z;
  strconv_ParseInt : string → option Z;
  time_Format_RFC3339 : Z → string
}.

Record World := {
  collection : list AdjacencyListDocument;
  trace : list Event;
  clock_reads : nat;
  ids_made : nat
}.

Definition M (A : Type) : Type := World → A * World.

Global Instance M_ret : MRet M := λ A (a : A) w, (a, w).
Global Instance M_bind : MBind M := λ A B (f : A → M B) (m : M A) w,
  let '(a, w') := m w in f a w'.

Definition emit (e : Event) : M nat := λ w,
  (length (trace w),
   {| collection := collection w; trace := trace w ++ [e];
      clock_reads := clock_reads w; ids_made := ids_made w |}).

Definition get_collection : M (list AdjacencyListDocument) := λ w,
  (collection w, w).

Definition append_document (doc : AdjacencyListDocument) : M unit := λ w,
  (tt,
   {| collection := collection w ++ [doc]; trace := trace w;
      clock_reads := clock_reads w; ids_made := ids_made w |}).

Definition wrap64 (z : Z) : Z :=
  ((z + 2 ^ 63) `mod` 2 ^ 64 - 2 ^ 63)%Z.

(** A [time.Time] keeps the seconds since January 1 of year 1 in an
    [int64] and the nanoseconds within the second. It is modelled by the
    instant that these two fields denote, in nanoseconds since the Unix
    epoch: [(seconds - unixToInternal) * 10^9 + nanoseconds]. *)
Definition unixToInternal : Z := 62135596800.

(** [t.sec()] and [t.nsec()]: the two fields of a time. *)
Definition Time_sec (t : Z) : Z := (t `div` 1000000000 + unixToInternal)%Z.
Definition Time_nsec (t : Z) : Z := (t `mod` 1000000000)%Z.

(** [time.Unix(sec, 0)]: the time whose seconds field is
    [sec + unixToInternal], an addition of [int64] that wraps around. *)
Definition time_Unix (sec : Z) : Z :=
  ((wrap64 (sec + unixToInternal) - unixToInternal) * 1000000000)%Z.

(** [t.Unix()]: [t.sec() + internalToUnix], again in [int64]. *)
Definition Unix (t : Z) : Z := wrap64 (Time_sec t - unixToInternal).

(** [t.After(u)]: [ts > us || ts == us && t.nsec() > u.nsec()] on the
    seconds and nanoseconds fields. *)
Definition After (t u : Z) : bool :=
  let ts := Time_sec t in
  let us := Time_sec u in
  bool_decide (ts > us)%Z ||
  (bool_decide (ts = us) && bool_decide (Time_nsec t > Time_nsec u)%Z).

(** ** mongodb.go: what [FindOne] with [sort: {timestamp: -1}] selects *)

Definition max_timestamp (coll : list AdjacencyListDocument) : option Z :=
  foldr (λ d acc, Some (match acc with
                        | None => Timestamp d
                        | Some t => Z.max (Timestamp d) t
                        end)) None coll.

Definition latest_documents (coll : list AdjacencyListDocument)
    : list AdjacencyListDocument :=
  match max_timestamp coll with
  | None => []
  | Some t => filter (λ d, Timestamp d = t) coll
  end.

Definition first_by_timestamp_desc (pick : nat)
    (coll : list AdjacencyListDocument) : option AdjacencyListDocument :=
  let latest := latest_documents coll in
  latest !! (pick `mod` length latest).

Inductive FindOutcome : Type :=
  | Found (doc : AdjacencyListDocument)
  | ErrNoDocuments
  | FindError (err : string).

(** ** handlers.go: responses *)

Record OCSContextDefinition := {
  ResourceID : string;
  Domain : string;
  Identity : gmap string Any;
  CtxMetrics : list MetricConfig;
  Topology : option (gmap string (list string));
  CtxPolicy : list string
}.

Record OCSPromptResponse := {
  SpecVersion : string;
  ContextDefinitions : list OCSContextDefinition
}.

Record CollectResponse := {
  adjacency_list : gmap string (list string);
  document_id : N;
  timestamp : string;
  from_timestamp : option string;
  to_timestamp : option string;
  time_window_minutes : option Z
}.

Inductive Body : Type :=
  | ErrorBody (message : string)
  | PromptBody (response : OCSPromptResponse)
  | CollectBody (response : CollectResponse).

Record Response := {
  StatusCode : Z;
  ResponseBody : Body
}.

Definition StatusOK : Z := 200.
Definition StatusBadRequest : Z := 400.
Definition StatusInternalServerError : Z := 500.

(** [c.Query(key)]: the value of the query parameter, the empty string
    when it is absent. *)
Definition Query (c : gmap string string) (key : string) : string :=
  default "" (c !! key).

(** Go's nil map read as a mapping: it has no entry. *)
Definition entries (m : option (gmap string (list string)))
    : gmap string (list string) :=
  default ∅ m.

(** The [dependencies] and [dependents] fields of a context definition's
    topology; [None] when the field (or the whole topology) is omitted. *)
Definition dependencies_of (c : OCSContextDefinition) : option (list string) :=
  Topology c ≫= (λ topology, topology !! "dependencies").

Definition dependents_of (c : OCSContextDefinition) : option (list string) :=
  Topology c ≫= (λ topology, topology !! "dependents").

Record Server := {
  ocsConfig : OCSConfig
}.

Section program.
Context `{!RangeOrder} `{!GoLib} `{!Env}.

(** [time.Now()]: the next reading of the clock. *)
Definition time_Now : M Z := λ w,
  (env_clock (clock_reads w),
   {| collection := collection w; trace := trace w;
      clock_reads := S (clock_reads w); ids_made := ids_made w |}).

(** [primitive.NewObjectID()]. *)
Definition NewObjectID : M N := λ w,
  (env_object_id (ids_made w),
   {| collection := collection w; trace := trace w;
      clock_reads := clock_reads w; ids_made := S (ids_made w) |}).

(** *** istio_connector.go *)

(** The second loop of [convertRangeToInstantResult]: one entry per
    element of [uniqueMetrics], with the dummy value
    [[time.Now().Unix(), "1"]]. *)
Fixpoint synthesize (entries : list (string * gmap string string))
    (acc : list InstantSample) : M (list InstantSample) :=
  match entries with
  | [] => mret acc
  | (_, v) :: rest =>
      now ← time_Now;
      synthesize rest
        (acc ++ [{| Metric := v;
                    Value := [AnyInt64 (Unix now); AnyString "1"] |}])
  end.

Definition convertRangeToInstantResult
    (rangeResult : PrometheusQueryRangeResult) : M PrometheusQueryResult :=
  let uniqueMetrics := uniqueMetrics_of rangeResult in
  result ← synthesize (go_range uniqueMetrics) [];
  mret {| Status := RStatus rangeResult; ResultType := ""; Result := result |}.

Definition queryRange (query : string) (fromTimestamp toTimestamp : Z)
    : M (string + PrometheusQueryResult) :=
  let start := Unix fromTimestamp in
  let end_ := Unix toTimestamp in
  let step := "15s" in
  n ← emit (PrometheusQueryRange query start end_ step);
  match env_prometheus_range n query start end_ step with
  | NewRequestError err => mret (inl ("failed to create request: " +:+ err))
  | DoError err => mret (inl ("failed to execute request: " +:+ err))
  | Replied statusCode body decoded =>
      if bool_decide (statusCode ≠ 200%Z) then
        mret (inl ("Prometheus returned status " +:+ pretty statusCode
                     +:+ ": " +:+ body))
      else
        match decoded with
        | inl err => mret (inl ("failed to decode response: " +:+ err))
        | inr rangeResult =>
            if bool_decide (RStatus rangeResult ≠ "success") then
              mret (inl ("Prometheus query failed with status: "
                           +:+ RStatus rangeResult))
            else
              r ← convertRangeToInstantResult rangeResult;
              mret (inr r)
        end
  end.

Definition queryInstant (query : string) : M (string + PrometheusQueryResult) :=
  n ← emit (PrometheusQuery query);
  match env_prometheus_instant n query with
  | NewRequestError err => mret (inl ("failed to create request: " +:+ err))
  | DoError err => mret (inl ("failed to execute request: " +:+ err))
  | Replied statusCode body decoded =>
      if bool_decide (statusCode ≠ 200%Z) then
        mret (inl ("Prometheus returned status " +:+ pretty statusCode
                     +:+ ": " +:+ body))
      else
        match decoded with
        | inl err => mret (inl ("failed to decode response: " +:+ err))
        | inr result =>
            if bool_decide (Status result ≠ "success") then
              mret (inl ("Prometheus query failed with status: "
                           +:+ Status result))
            else mret (inr result)
        end
  end.

(** The double quote of the PromQL matcher. *)
Definition dquote : string := String (Ascii.ascii_of_nat 34) EmptyString.

Definition QueryMetrics (sourceWorkloads : list string)
    (fromTimestamp toTimestamp : option Z)
    : M (string + PrometheusQueryResult) :=
  if is_nil sourceWorkloads then mret (inl "no source workloads provided")
  else
    let workloadFilter := String.concat "|" sourceWorkloads in
    let query :=
      "istio_requests_total{source_workload=~" +:+ dquote +:+
      workloadFilter +:+ dquote +:+ "}" in
    match fromTimestamp, toTimestamp with
    | Some f, Some t => queryRange query f t
    | _, _ => queryInstant query
    end.

(** *** mongodb.go *)

(** [collection.FindOne(ctx, bson.D{}, opts).Decode(&doc)] with
    [opts] sorting on [timestamp] descending. *)
Definition FindOne_latest : M FindOutcome :=
  n ← emit MongoFindOne;
  match env_mongo_error n with
  | Some err => mret (FindError err)
  | None =>
      coll ← get_collection;
      match first_by_timestamp_desc (env_find_pick n) coll with
      | Some doc => mret (Found doc)
      | None => mret ErrNoDocuments
      end
  end.

(** Returns [(adjacencyList, err)]; [None] is the nil map. *)
Definition GetLatestAdjacencyList
    : M (option (gmap string (list string)) * option string) :=
  found ← FindOne_latest;
  match found with
  | ErrNoDocuments => mret (None, None)
  | FindError err => mret (None, Some ("failed to query MongoDB: " +:+ err))
  | Found doc => mret (Some (AdjacencyList doc), None)
  end.

(** The loop [for _, dests := range adjacencyList]. *)
Definition totalConnections_of (adjacencyList : gmap string (list string)) : Z :=
  foldl (λ (totalConnections : Z) (kv : string * list string),
           (totalConnections + Z.of_nat (length kv.2))%Z)
        0%Z (go_range adjacencyList).

(** The document literal of [SaveAdjacencyList]. *)
Definition new_document (id : N) (now : Z)
    (adjacencyList : gmap string (list string)) : AdjacencyListDocument :=
  {| ID := id;
     AdjacencyList := adjacencyList;
     Timestamp := now;
     SourceCount := Z.of_nat (size adjacencyList);
     TotalConnections := totalConnections_of adjacencyList |}.

(** [collection.InsertOne(ctx, doc)]. *)
Definition InsertOne (doc : AdjacencyListDocument) : M (string + N) :=
  n ← emit (MongoInsertOne doc);
  match env_mongo_error n with
  | Some err => mret (inl err)
  | None => _ ← append_document doc; mret (inr (ID doc))
  end.

Definition SaveAdjacencyList (adjacencyList : gmap string (list string))
    : M (N * option string) :=
  id ← NewObjectID;
  now ← time_Now;
  let doc := new_document id now adjacencyList in
  result ← InsertOne doc;
  match result with
  | inl err => mret (NilObjectID, Some ("failed to insert document: " +:+ err))
  | inr insertedID => mret (insertedID, None)
  end.


(** *** handlers.go *)

(** The loop of [buildTopology] that collects the reverse
    dependencies of [workload]. *)
Definition reverseDeps_of (adjacencyList : gmap string (list string))
    (workload : string) : list string :=
  foldl (λ (reverseDeps : list string) (kv : string * list string),
           foldl (λ (reverseDeps : list string) (dest : string),
                    if bool_decide (dest = workload)
                    then reverseDeps ++ [kv.1]
                    else reverseDeps)
                 reverseDeps kv.2)
        [] (go_range adjacencyList).

Definition buildTopology (adjacencyList : gmap string (list string))
    (workload : string) : gmap string (list string) :=
  let topology : gmap string (list string) := ∅ in
  let topology :=
    match adjacencyList !! workload with
    | Some destinations =>
        if negb (is_nil destinations)
        then <["dependencies" := destinations]> topology
        else topology
    | None => topology
    end in
  let reverseDeps := reverseDeps_of adjacencyList workload in
  if negb (is_nil reverseDeps)
  then <["dependents" := reverseDeps]> topology
  else topology.

Definition workloadSet_of (adjacencyList : gmap string (list string))
    (config : OCSConfig) : gmap string bool :=
  let workloadSet : gmap string bool := ∅ in
  let workloadSet :=
    foldl (λ (workloadSet : gmap string bool) (kv : string * list string),
             foldl (λ (workloadSet : gmap string bool) (dest : string),
                      <[dest := true]> workloadSet)
                   (<[kv.1 := true]> workloadSet) kv.2)
          workloadSet (go_range adjacencyList) in
  foldl (λ (workloadSet : gmap string bool) (workload : string),
           <[workload := true]> workloadSet)
        workloadSet (Workload config).

(** The body of the last loop of [buildContextDefinitions]. *)
Definition contextDef_of (adjacencyList : gmap string (list string))
    (config : OCSConfig) (workload : string) : OCSContextDefinition :=
  let topology := buildTopology adjacencyList workload in
  {| ResourceID := "workload-" +:+ workload;
     Domain := "compute.k8s";
     Identity := {[ "workload" := AnyString workload ]};
     CtxMetrics := Metrics config;
     Topology := if bool_decide (0 < size topology) then Some topology else None;
     CtxPolicy := Policy config |}.

Definition buildContextDefinitions (adjacencyList : gmap string (list string))
    (config : OCSConfig) : list OCSContextDefinition :=
  foldl (λ (contextDefinitions : list OCSContextDefinition)
           (kv : string * bool),
           contextDefinitions ++ [contextDef_of adjacencyList config kv.1])
        [] (go_range (workloadSet_of adjacencyList config)).

Definition parseTimestamp (timestampStr : string) : string + Z :=
  match time_Parse_RFC3339 timestampStr with
  | Some t => inr t
  | None =>
      match strconv_ParseInt timestampStr with
      | Some unixSec => inr (time_Unix unixSec)
      | None => inl "unable to parse timestamp"
      end
  end.

Definition invalid_format (param err : string) : string :=
  "invalid " +:+ param +:+
  " format. Use RFC3339 (e.g., 2024-01-01T00:00:00Z) or Unix timestamp: "
  +:+ err.

(** The check under [// Validate timestamp range]. *)
Definition validate_range (fromTimestamp toTimestamp : option Z)
    : string + (option Z * option Z) :=
  match fromTimestamp, toTimestamp with
  | Some f, Some t =>
      if After f t
      then inl "from_timestamp must be before to_timestamp"
      else inr (fromTimestamp, toTimestamp)
  | Some _, None | None, Some _ =>
      inl "both from_timestamp and to_timestamp must be provided together, or neither"
  | None, None => inr (fromTimestamp, toTimestamp)
  end.

Definition parseTimestampParams (c : gmap string string) (config : OCSConfig)
    : M (string + (option Z * option Z)) :=
  let fromStr := Query c "from_timestamp" in
  let toStr := Query c "to_timestamp" in
  if bool_decide (fromStr ≠ "") || bool_decide (toStr ≠ "") then
    match (if bool_decide (fromStr ≠ "")
           then match parseTimestamp fromStr with
                | inl err => inl (invalid_format "from_timestamp" err)
                | inr fromTime => inr (Some fromTime)
                end
           else inr None) with
    | inl err => mret (inl err)
    | inr fromTimestamp =>
        match (if bool_decide (toStr ≠ "")
               then match parseTimestamp toStr with
                    | inl err => inl (invalid_format "to_timestamp" err)
                    | inr toTime => inr (Some toTime)
                    end
               else inr None) with
        | inl err => mret (inl err)
        | inr toTimestamp => mret (validate_range fromTimestamp toTimestamp)
        end
    end
  else
    match TimeWindowMinutes config with
    | Some minutes =>
        now ← time_Now;
        let windowDuration := wrap64 (wrap64 minutes * 60000000000) in
        let fromTime := (now + wrap64 (- windowDuration))%Z in
        mret (inr (Some fromTime, Some now))
    | None => mret (inr (None, None))
    end.

Definition error_response (code : Z) (message : string) : Response :=
  {| StatusCode := code; ResponseBody := ErrorBody message |}.

Definition getOCSPromptHandler (s : Server) : M Response :=
  '(adjacencyList, err) ← GetLatestAdjacencyList;
  match err with
  | Some err =>
      mret (error_response StatusInternalServerError
              ("Failed to retrieve topology from MongoDB: " +:+ err))
  | None =>
      let adjacencyList :=
        match adjacencyList with
        | None => ∅
        | Some adjacencyList => adjacencyList
        end in
      let contextDefinitions :=
        buildContextDefinitions adjacencyList (ocsConfig s) in
      mret {| StatusCode := StatusOK;
              ResponseBody :=
                PromptBody {| SpecVersion := "0.1";
                              ContextDefinitions := contextDefinitions |} |}
  end.

Definition collectIstioMetricsHandler (s : Server) (c : gmap string string)
    : M Response :=
  if is_nil (Workload (ocsConfig s)) then
    mret (error_response StatusBadRequest
            "No source workloads configured in ocs_config.yaml")
  else
    parsed ← parseTimestampParams c (ocsConfig s);
    match parsed with
    | inl err => mret (error_response StatusBadRequest err)
    | inr (fromTimestamp, toTimestamp) =>
        queried ← QueryMetrics (Workload (ocsConfig s)) fromTimestamp toTimestamp;
        match queried with
        | inl err =>
            mret (error_response StatusInternalServerError
                    ("Failed to query Prometheus: " +:+ err))
        | inr result =>
            let adjacencyList := ExtractAdjacencyList result in
            '(docID, err) ← SaveAdjacencyList adjacencyList;
            match err with
            | Some err =>
                mret (error_response StatusInternalServerError
                        ("Failed to save to MongoDB: " +:+ err))
            | None =>
                now ← time_Now;
                let ranged :=
                  match fromTimestamp, toTimestamp with
                  | Some f, Some t =>
                      Some (time_Format_RFC3339 f, time_Format_RFC3339 t)
                  | _, _ => None
                  end in
                let fromStr := Query c "from_timestamp" in
                let toStr := Query c "to_timestamp" in
                mret {| StatusCode := StatusOK;
                        ResponseBody :=
                          CollectBody
                            {| adjacency_list := adjacencyList;
                               document_id := docID;
                               timestamp := time_Format_RFC3339 now;
                               from_timestamp := fst <$> ranged;
                               to_timestamp := snd <$> ranged;
                               time_window_minutes :=
                                 match ranged, TimeWindowMinutes (ocsConfig s) with
                                 | Some _, Some minutes =>
                                     if bool_decide (fromStr = "") &&
                                        bool_decide (toStr = "")
                                     then Some minutes else None
                                 | _, _ => None
                                 end |} |}
            end
        end
    end.

End program.

(** ** Concrete inputs

    A range order, a fragment of the standard library and an outside
    world on which the definitions above can be run. *)

(** [range] in the order of the map's own enumeration. *)
Definition trie_order : RangeOrder :=
  {| go_range := λ A (m : gmap string A), map_to_list m;
     go_range_perm := λ A (m : gmap string A), Permutation_refl (map_to_list m) |}.

Fixpoint decimal_digits (s : string) (acc : Z) : option Z :=
  match s with
  | EmptyString => Some acc
  | String a rest =>
      let n := Z.of_nat (Ascii.nat_of_ascii a) in
      if bool_decide (48 ≤ n ≤ 57)%Z
      then decimal_digits rest (acc * 10 + (n - 48))%Z
      else None
  end.

(** [strconv.ParseInt(s, 10, 64)] on an optional sign followed by
    digits. *)
Definition ParseInt_decimal (s : string) : option Z :=
  let in_range (z : Z) : option Z :=
    if bool_decide (- 2 ^ 63 ≤ z < 2 ^ 63)%Z then Some z else None in
  match s with
  | EmptyString => None
  | String a rest =>
      if bool_decide (Ascii.nat_of_ascii a = 45) then
        if bool_decide (rest = EmptyString) then None
        else decimal_digits rest 0 ≫= (λ z, in_range (- z)%Z)
      else if bool_decide (Ascii.nat_of_ascii a = 43) then
        if bool_decide (rest = EmptyString) then None
        else decimal_digits rest 0 ≫= in_range
      else decimal_digits s 0 ≫= in_range
  end.

(** The library restricted to two RFC 3339 dates and to decimal Unix
    timestamps. *)
Definition small_lib : GoLib :=
  {| time_Parse_RFC3339 := λ s,
       if bool_decide (s = "2024-01-01T00:00:00Z")
       then Some 1704067200000000000%Z
       else if bool_decide (s = "2024-01-02T00:00:00Z")
       then Some 1704153600000000000%Z
       else None;
     strconv_ParseInt := ParseInt_decimal;
     time_Format_RFC3339 := λ t,
       if bool_decide (t = 1704067200000000000%Z) then "2024-01-01T00:00:00Z"
       else if bool_decide (t = 1704153600000000000%Z)
       then "2024-01-02T00:00:00Z"
       else "@" +:+ pretty (Unix t) |}.

(** One entry of an instant response with the two workload labels. *)
Definition edge_sample (source destination : string) : InstantSample :=
  {| Metric := <[ "source_workload" := source ]>
                 {[ "destination_workload" := destination ]};
     Value := [AnyNumber "1700000000"; AnyString "1"] |}.

(** An entry without [source_workload]. *)
Definition unlabelled_sample : InstantSample :=
  {| Metric := {[ "destination_workload" := "db" ]};
     Value := [AnyNumber "1700000000"; AnyString "1"] |}.

Definition sample_result : PrometheusQueryResult :=
  {| Status := "success";
     ResultType := "vector";
     Result := [ edge_sample "app" "db"; edge_sample "app" "cache";
                 edge_sample "app" "db"; edge_sample "proxy" "app" ] |}.

(** A world in which Prometheus answers [sample_result], the store never
    fails and every reading of the clock is [step] nanoseconds after the
    one before; [pick] is the store's choice among equal timestamps. *)
Definition calm_env (step : Z) (pick : nat) : Env :=
  {| env_clock := λ n, (1700000000000000000 + step * Z.of_nat n)%Z;
     env_object_id := λ n, N.of_nat (S n);
     env_prometheus_instant := λ _ _, Replied 200 "" (inr sample_result);
     env_prometheus_range := λ _ _ _ _ _,
       Replied 200 ""
         (inr {| RStatus := "success"; RResultType := "matrix"; RResult := [] |});
     env_mongo_error := λ _, None;
     env_find_pick := λ _, pick |}.

Definition empty_world : World :=
  {| collection := []; trace := []; clock_reads := 0; ids_made := 0 |}.


Definition topology_two : gmap string (list string) :=
  <[ "app" := ["db"; "cache"] ]> {[ "proxy" := ["app"] ]}.

Definition sample_config : OCSConfig :=
  {| Policy := ["keep error rate low"];
     Metrics := [];
     Workload := ["database"; "cache"; "app"; "proxy"];
     TimeWindowMinutes := None |}.

Definition sample_server : Server := {| ocsConfig := sample_config |}.

Definition config_ab : OCSConfig :=
  {| Policy := []; Metrics := []; Workload := ["a"; "b"];
     TimeWindowMinutes := None |}.

(** What a context definition says about the topology. *)
Definition topology_view (c : OCSContextDefinition)
    : string * option (list string) * option (list string) :=
  (ResourceID c, dependencies_of c, dependents_of c).

(** Query parameters of two collection requests. *)
Definition inverted_request : gmap string string :=
  <[ "from_timestamp" := "2024-01-02T00:00:00Z" ]>
    {[ "to_timestamp" := "1704067200" ]}.

Definition from_only_request : gmap string string :=
  {[ "from_timestamp" := "2024-01-01T00:00:00Z" ]}.

(** ** Reading the extractor's result off its input *)

(** The destination that the entry [r] brings to [source], if it brings
    one. *)
Definition destination_for (source : string) (r : InstantSample)
    : option string :=
  let s := label (Metric r) "source_workload" in
  let d := label (Metric r) "destination_workload" in
  if bool_decide (s = source ∧ s ≠ "" ∧ d ≠ "") then Some d else None.

(** A list without its repeats, every element at the place of its first
    occurrence. *)
Definition first_occurrences (l : list string) : list string :=
  reverse (remove_dups (reverse l)).

(** Appending [d] unless it is there. *)
Definition add_new (acc : list string) (d : string) : list string :=
  if decide (d ∈ acc) then acc else acc ++ [d].

(** The edge that the entry [r] carries, if it carries one. *)
Definition edge_of (r : InstantSample) : option (string * string) :=
  let s := label (Metric r) "source_workload" in
  let d := label (Metric r) "destination_workload" in
  if bool_decide (s ≠ "" ∧ d ≠ "") then Some (s, d) else None.

(** The set of the edges carried by the entries of a response. *)
Definition edges_of (rs : list InstantSample) : gset (string * string) :=
  list_to_set (omap edge_of rs).

(** The edges of an adjacency mapping, source by source. *)
Definition edge_list (m : gmap string (list string)) : list (string * string) :=
  map_to_list m ≫= (λ kv : string * list string, (λ d, (kv.1, d)) <$> kv.2).

(** An entry whose [source_workload] label is there and empty. *)
Definition empty_source_sample : InstantSample :=
  {| Metric := <[ "source_workload" := "" ]>
                 {[ "destination_workload" := "db" ]};
     Value := [AnyNumber "1700000000"; AnyString "1"] |}.

(** ** The request that [QueryMetrics] sends *)

(** The PromQL expression for a list of source workloads. *)
Definition istio_query (sourceWorkloads : list string) : string :=
  "istio_requests_total{source_workload=~" +:+ dquote +:+
  String.concat "|" sourceWorkloads +:+ dquote +:+ "}".

(** The request for a list of source workloads and a time range: a range
    query when both ends are there, an instant query otherwise. *)
Definition request_of (sourceWorkloads : list string)
    (fromTimestamp toTimestamp : option Z) : Event :=
  match fromTimestamp, toTimestamp with
  | Some f, Some t =>
      PrometheusQueryRange (istio_query sourceWorkloads) (Unix f) (Unix t) "15s"
  | _, _ => PrometheusQuery (istio_query sourceWorkloads)
  end.

(** A ranged response with two series, and the same response with other
    samples. *)
Definition ranged_response : PrometheusQueryRangeResult :=
  {| RStatus := "success";
     RResultType := "matrix";
     RResult :=
       [ {| RMetric := Metric (edge_sample "app" "db");
            Values := [[AnyNumber "1700000000"; AnyString "3"];
                       [AnyNumber "1700000015"; AnyString "4"]] |};
         {| RMetric := Metric (edge_sample "proxy" "app");
            Values := [[AnyNumber "1700000000"; AnyString "7"]] |} ] |}.

Definition ranged_response_later : PrometheusQueryRangeResult :=
  {| RStatus := "success";
     RResultType := "matrix";
     RResult :=
       [ {| RMetric := Metric (edge_sample "app" "db");
            Values := [[AnyNumber "1800000000"; AnyString "9"]] |};
         {| RMetric := Metric (edge_sample "proxy" "app");
            Values := [] |} ] |}.

(** ** Workloads without topology *)

(** A workload with no destination of its own that is the destination of
    no source. *)
Definition isolated (adjacencyList : gmap string (list string))
    (workload : string) : Prop :=
  slice_at adjacencyList workload = [] ∧
  ∀ source dests, adjacencyList !! source = Some dests → workload ∉ dests.

(** A request with both timestamps as Unix seconds. *)
Definition unix_request : gmap string string :=
  <[ "from_timestamp" := "1704067200" ]>
    {[ "to_timestamp" := "1704153600" ]}.

(** A configuration with a window of five minutes. *)
Definition window_config : OCSConfig :=
  {| Policy := []; Metrics := []; Workload := ["app"];
     TimeWindowMinutes := Some 5%Z |}.


(** The answer of a collection without parameters in the calm world. *)
Definition calm_collect_response : CollectResponse :=
  {| adjacency_list := ExtractAdjacencyList sample_result;
     document_id := 1%N;
     timestamp := "@1700000001";
     from_timestamp := None;
     to_timestamp := None;
     time_window_minutes := None |}.

(** A request whose [from_timestamp] is the greatest [int64] and whose
    [to_timestamp] is 0, both as Unix seconds. *)
Definition overflow_request : gmap string string :=
  <[ "from_timestamp" := "9223372036854775807" ]>
    {[ "to_timestamp" := "0" ]}.

(** A request with Unix seconds in the wrong order. *)
Definition unix_inverted_request : gmap string string :=
  <[ "from_timestamp" := "1704153600" ]>
    {[ "to_timestamp" := "1704067200" ]}.

(** * Properties *)

(** ** Adjacency extractor *)

Section extract.

Lemma contains_spec dests destination :
  contains dests destination = true ↔ destination ∈ dests.
Proof.
  induction dests as [|dest rest IH]; simpl.
  - split; [done | by intros ?%elem_of_nil].
  - case_bool_decide as Heq.
    + subst. split; [intros _; left | done].
    + rewrite IH. split; [by right |].
      intros [?|?]%elem_of_cons; [congruence | done].
Qed.

Lemma contains_false dests destination :
  contains dests destination = false ↔ destination ∉ dests.
Proof.
  rewrite <- contains_spec. destruct (contains dests destination); naive_solver.
Qed.

Lemma is_nil_true {A} (s : list A) : is_nil s = true ↔ s = [].
Proof. by destruct s. Qed.

Lemma label_carries (r : InstantSample) source destination :
  carries_edge r source destination ↔
  label (Metric r) "source_workload" = source ∧
  label (Metric r) "destination_workload" = destination ∧
  source ≠ "" ∧ destination ≠ "".
Proof.
  unfold carries_edge, label.
  destruct (Metric r !! "source_workload") as [s|],
           (Metric r !! "destination_workload") as [d|]; simpl; naive_solver.
Qed.

(** What one step does to the slice stored at any key. *)
Lemma extract_step_slice adj r s :
  slice_at (extract_step adj r) s =
    let source := label (Metric r) "source_workload" in
    let destination := label (Metric r) "destination_workload" in
    if bool_decide (source ≠ "" ∧ destination ≠ "" ∧ s = source ∧
                    destination ∉ slice_at adj s)
    then slice_at adj s ++ [destination]
    else slice_at adj s.
Proof.
  unfold extract_step. cbv zeta.
  set (source := label (Metric r) "source_workload").
  set (destination := label (Metric r) "destination_workload").
  destruct (bool_decide_reflect (source ≠ "")) as [Hs|Hs]; simpl;
    [|rewrite bool_decide_eq_false_2; [done | naive_solver]].
  destruct (bool_decide_reflect (destination ≠ "")) as [Hd|Hd]; simpl;
    [|rewrite bool_decide_eq_false_2; [done | naive_solver]].
  destruct (is_nil (slice_at adj source)) eqn:Hnil.
  - apply is_nil_true in Hnil.
    assert (slice_at (<[source:=[]]> adj) source = []) as Hcur
      by (unfold slice_at; by rewrite lookup_insert_eq).
    rewrite Hcur. simpl.
    destruct (decide (s = source)) as [->|Hne].
    + rewrite bool_decide_eq_true_2.
      * unfold slice_at at 1. rewrite lookup_insert_eq. simpl. by rewrite Hnil.
      * rewrite Hnil. split_and!; try done. by intros ?%elem_of_nil.
    + rewrite bool_decide_eq_false_2; [|naive_solver].
      unfold slice_at. by rewrite !lookup_insert_ne.
  - destruct (contains (slice_at adj source) destination) eqn:Hc; simpl.
    + apply contains_spec in Hc.
      rewrite bool_decide_eq_false_2; [done | naive_solver].
    + apply contains_false in Hc.
      destruct (decide (s = source)) as [->|Hne].
      * rewrite bool_decide_eq_true_2; [|done].
        unfold slice_at at 1. by rewrite lookup_insert_eq.
      * rewrite bool_decide_eq_false_2; [|naive_solver].
        unfold slice_at. by rewrite lookup_insert_ne.
Qed.

(** Keys are only ever added, and never with an empty slice: the slice
    made by [make([]string, 0)] receives the destination in the same
    step. *)
Lemma extract_step_lookup adj r s ds :
  extract_step adj r !! s = Some ds →
  adj !! s = Some ds ∨ ds ≠ [].
Proof.
  unfold extract_step. cbv zeta.
  set (source := label (Metric r) "source_workload").
  set (destination := label (Metric r) "destination_workload").
  destruct (bool_decide (source ≠ "") && bool_decide (destination ≠ ""));
    [|by left].
  destruct (is_nil (slice_at adj source)) eqn:Hnil.
  - assert (slice_at (<[source:=[]]> adj) source = []) as Hcur
      by (unfold slice_at; by rewrite lookup_insert_eq).
    rewrite Hcur. simpl.
    destruct (decide (s = source)) as [->|Hne].
    + rewrite lookup_insert_eq. intros [= <-]. by right.
    + rewrite !lookup_insert_ne by done. by left.
  - destruct (contains (slice_at adj source) destination); simpl; [by left|].
    destruct (decide (s = source)) as [->|Hne].
    + rewrite lookup_insert_eq. intros [= <-]. right.
      by intros [? ?]%app_eq_nil.
    + rewrite lookup_insert_ne by done. by left.
Qed.

Lemma extract_step_NoDup adj r :
  (∀ s, NoDup (slice_at adj s)) →
  ∀ s, NoDup (slice_at (extract_step adj r) s).
Proof.
  intros Hnd s. rewrite extract_step_slice. cbv zeta.
  case_bool_decide as Hc; [|done].
  destruct Hc as (_ & _ & _ & Hnotin).
  apply NoDup_app. split_and!; [done | | apply NoDup_singleton].
  intros x Hx ->%list_elem_of_singleton. done.
Qed.

Lemma extract_step_elem adj r s d :
  d ∈ slice_at (extract_step adj r) s ↔
  d ∈ slice_at adj s ∨ carries_edge r s d.
Proof.
  rewrite extract_step_slice, label_carries. cbv zeta.
  case_bool_decide as Hc.
  - destruct Hc as (Hs & Hd & -> & Hnotin).
    rewrite elem_of_app, list_elem_of_singleton. split.
    + intros [?| ->]; [by left | by right].
    + intros [?|(_ & <- & _)]; [by left | by right].
  - split; [by left |].
    intros [?|(<- & <- & Hs & Hd)]; [done |].
    destruct (decide
      (label (Metric r) "destination_workload"
         ∈ slice_at adj (label (Metric r) "source_workload"))); [done |].
    by destruct Hc.
Qed.

Lemma foldl_extract_NoDup rs adj :
  (∀ s, NoDup (slice_at adj s)) →
  ∀ s, NoDup (slice_at (foldl extract_step adj rs) s).
Proof.
  revert adj. induction rs as [|r rs IH]; intros adj Hnd; simpl; [done |].
  apply IH. by apply extract_step_NoDup.
Qed.

Lemma foldl_extract_elem rs adj s d :
  d ∈ slice_at (foldl extract_step adj rs) s ↔
  d ∈ slice_at adj s ∨ ∃ r, r ∈ rs ∧ carries_edge r s d.
Proof.
  revert adj. induction rs as [|r rs IH]; intros adj; simpl.
  - split; [by left |]. intros [?|(r & ?%elem_of_nil & _)]; done.
  - rewrite IH, extract_step_elem. split.
    + intros [[?|?]|(r' & ? & ?)].
      * by left.
      * right. exists r. split; [left | done].
      * right. exists r'. split; [by right | done].
    + intros [?|(r' & [->|?]%elem_of_cons & ?)].
      * by left; left.
      * by left; right.
      * right. by exists r'.
Qed.

Lemma foldl_extract_nonempty rs adj :
  (∀ s ds, adj !! s = Some ds → ds ≠ []) →
  ∀ s ds, foldl extract_step adj rs !! s = Some ds → ds ≠ [].
Proof.
  revert adj. induction rs as [|r rs IH]; intros adj Hne; simpl; [done |].
  apply IH. intros s ds [?|?]%extract_step_lookup; eauto.
Qed.

Lemma slice_at_empty s : slice_at ∅ s = [].
Proof. unfold slice_at. by rewrite lookup_empty. Qed.

(** An entry without one of the two labels leaves the map as it is. *)
Lemma extract_step_missing adj r :
  Metric r !! "source_workload" = None ∨
  Metric r !! "destination_workload" = None →
  extract_step adj r = adj.
Proof.
  intros Hmiss. unfold extract_step, label. cbv zeta.
  destruct Hmiss as [-> | ->]; simpl; [done |].
  by rewrite andb_false_r.
Qed.

(** C4. [ExtractAdjacencyList] never yields a source whose destination
    list holds a duplicate: a destination is in the list of a source
    exactly when some entry of the input carries that pair, and then it is
    there once, however often the pair occurs in the input. *)
Theorem extract_no_duplicate_destination result source dests :
  ExtractAdjacencyList result !! source = Some dests →
  NoDup dests ∧
  ∀ destination,
    destination ∈ dests ↔
    ∃ r, r ∈ Result result ∧ carries_edge r source destination.
Proof.
  intros Hlk. unfold ExtractAdjacencyList in *.
  assert (slice_at (foldl extract_step ∅ (Result result)) source = dests)
    as <- by (unfold slice_at; by rewrite Hlk).
  split.
  - apply foldl_extract_NoDup. intros s. rewrite slice_at_empty. constructor.
  - intros destination. rewrite foldl_extract_elem, slice_at_empty.
    split; [intros [?%elem_of_nil|?]; done | by right].
Qed.

(** C7. An entry that lacks the [source_workload] label or the
    [destination_workload] label contributes nothing: the extracted map
    is the one obtained without that entry. [ExtractAdjacencyList] is a
    total function into maps, it has no error result. *)
Theorem extract_drops_unlabelled status resultType before r after :
  Metric r !! "source_workload" = None ∨
  Metric r !! "destination_workload" = None →
  ExtractAdjacencyList
    {| Status := status; ResultType := resultType;
       Result := before ++ r :: after |} =
  ExtractAdjacencyList
    {| Status := status; ResultType := resultType;
       Result := before ++ after |}.
Proof.
  intros Hmiss. unfold ExtractAdjacencyList. simpl.
  rewrite !foldl_app. simpl. by rewrite extract_step_missing.
Qed.

(** C9. Every source of the extracted map has at least one destination,
    so the number of keys is the number of sources with an edge. *)
Theorem extract_sources_nonempty result :
  (∀ source dests,
     ExtractAdjacencyList result !! source = Some dests → dests ≠ []) ∧
  size (ExtractAdjacencyList result) =
    size (filter (λ kv : string * list string, kv.2 ≠ [])
            (ExtractAdjacencyList result)).
Proof.
  assert (∀ source dests,
     ExtractAdjacencyList result !! source = Some dests → dests ≠ []) as Hne.
  { apply foldl_extract_nonempty. intros s ds. by rewrite lookup_empty. }
  split; [done |].
  f_equal. symmetry. apply map_filter_id. intros s ds. apply Hne.
Qed.

End extract.

(** ** Topology repository *)

Section repository.
Context `{!RangeOrder} `{!Env}.

Lemma foldl_add_lengths (l : list (string * list string)) (z : Z) :
  foldl (λ (totalConnections : Z) (kv : string * list string),
           (totalConnections + Z.of_nat (length kv.2))%Z) z l =
  (z + Z.of_nat (sum_list_with (λ kv, length kv.2) l))%Z.
Proof.
  revert z. induction l as [|kv l IH]; intros z; simpl; [lia |].
  rewrite IH. lia.
Qed.

Lemma sum_list_with_agree {A} (f g : A → nat) (l : list A) :
  (∀ x, x ∈ l → f x = g x) → sum_list_with f l = sum_list_with g l.
Proof.
  induction l as [|x l IH]; intros Hfg; simpl; [done |].
  rewrite (Hfg x) by left. rewrite IH; [done |].
  intros y Hy. apply Hfg. by right.
Qed.

(** Summing over the entries is summing over the sources. *)
Lemma sum_entries_sources (m : gmap string (list string)) :
  sum_list_with (λ kv : string * list string, length kv.2) (map_to_list m) =
  sum_list_with (λ s, length (slice_at m s)) (elements (dom m)).
Proof.
  induction m as [|s ds m Hs IH] using map_ind.
  - by rewrite map_to_list_empty, dom_empty_L, elements_empty.
  - rewrite map_to_list_insert by done.
    rewrite dom_insert_L.
    rewrite elements_union_singleton by (by apply not_elem_of_dom).
    simpl. rewrite IH. f_equal.
    + unfold slice_at. by rewrite lookup_insert_eq.
    + apply sum_list_with_agree. intros s' Hs'.
      apply elem_of_elements, elem_of_dom in Hs'.
      unfold slice_at. rewrite lookup_insert_ne; [done |].
      intros ->. rewrite Hs in Hs'. by destruct Hs'.
Qed.

Lemma totalConnections_of_sum (adjacencyList : gmap string (list string)) :
  totalConnections_of adjacencyList =
  Z.of_nat (sum_list_with (λ source, length (slice_at adjacencyList source))
              (elements (dom adjacencyList))).
Proof.
  unfold totalConnections_of. rewrite foldl_add_lengths.
  rewrite (go_range_perm _ adjacencyList), sum_entries_sources. lia.
Qed.

(** A save that the store accepts. *)
Lemma SaveAdjacencyList_ok adjacencyList w :
  env_mongo_error (length (trace w)) = None →
  let doc := new_document (env_object_id (ids_made w))
               (env_clock (clock_reads w)) adjacencyList in
  SaveAdjacencyList adjacencyList w =
    ((ID doc, None),
     {| collection := collection w ++ [doc];
        trace := trace w ++ [MongoInsertOne doc];
        clock_reads := S (clock_reads w);
        ids_made := S (ids_made w) |}).
Proof.
  intros Hok. unfold SaveAdjacencyList, InsertOne, NewObjectID, time_Now,
    emit, append_document, mbind, M_bind, mret, M_ret. simpl.
  by rewrite Hok.
Qed.


(** C2. The snapshot that [SaveAdjacencyList] persists carries, as
    [TotalConnections], the sum over all sources of the length of the
    source's destination list and, as [SourceCount], the number of
    sources of the mapping. *)
Theorem save_counts adjacencyList w :
  env_mongo_error (length (trace w)) = None →
  ∃ doc,
    collection (SaveAdjacencyList adjacencyList w).2 = collection w ++ [doc] ∧
    (SaveAdjacencyList adjacencyList w).1 = (ID doc, None) ∧
    AdjacencyList doc = adjacencyList ∧
    TotalConnections doc =
      Z.of_nat (sum_list_with
                  (λ source, length (slice_at adjacencyList source))
                  (elements (dom adjacencyList))) ∧
    SourceCount doc = Z.of_nat (size (dom adjacencyList)).
Proof.
  intros Hok. rewrite (SaveAdjacencyList_ok _ _ Hok). simpl.
  eexists. split_and!; try reflexivity; simpl.
  - apply totalConnections_of_sum.
  - by rewrite size_dom.
Qed.

End repository.

Section latest.
Context `{!RangeOrder} `{!Env}.

Lemma filter_none {A} (P : A → Prop) `{!∀ x, Decision (P x)} (l : list A) :
  (∀ x, x ∈ l → ¬ P x) → filter P l = [].
Proof.
  induction l as [|x l IH]; intros Hno; [done |].
  rewrite filter_cons_False by (apply Hno; left).
  apply IH. intros y Hy. apply Hno. by right.
Qed.

Lemma max_timestamp_spec coll t :
  max_timestamp coll = Some t →
  (∃ d, d ∈ coll ∧ Timestamp d = t) ∧
  (∀ d, d ∈ coll → (Timestamp d ≤ t)%Z).
Proof.
  revert t. induction coll as [|d coll IH]; intros t; simpl; [done |].
  destruct (max_timestamp coll) as [t'|] eqn:Hmax; intros [= <-].
  - destruct (IH t' eq_refl) as [(d' & Hd' & Ht') Hle]. split.
    + destruct (Z.max_spec (Timestamp d) t') as [[_ ->]|[_ ->]].
      * exists d'. split; [by right | done].
      * exists d. split; [left | done].
    + intros d0 [->|Hin]%elem_of_cons; [lia |].
      specialize (Hle d0 Hin). lia.
  - destruct coll as [|d' coll']; [|done]. split.
    + exists d. split; [left | done].
    + intros d0 [->|?%elem_of_nil]%elem_of_cons; [lia | done].
Qed.

Lemma max_timestamp_None coll : max_timestamp coll = None ↔ coll = [].
Proof. by destruct coll. Qed.

Lemma latest_documents_elem coll d :
  d ∈ latest_documents coll ↔
  d ∈ coll ∧ ∀ d', d' ∈ coll → (Timestamp d' ≤ Timestamp d)%Z.
Proof.
  unfold latest_documents.
  destruct (max_timestamp coll) as [t|] eqn:Hmax.
  - destruct (max_timestamp_spec _ _ Hmax) as [(d0 & Hd0 & Ht0) Hle].
    rewrite list_elem_of_filter. split.
    + intros [-> Hin]. split; [done | exact Hle].
    + intros [Hin Hge]. split; [|done].
      specialize (Hle d Hin). specialize (Hge d0 Hd0). lia.
  - apply max_timestamp_None in Hmax as ->.
    split; [by intros ?%elem_of_nil | by intros [?%elem_of_nil _]].
Qed.

Lemma latest_documents_nonempty coll :
  coll ≠ [] → latest_documents coll ≠ [].
Proof.
  intros Hne Hnil. unfold latest_documents in Hnil.
  destruct (max_timestamp coll) as [t|] eqn:Hmax.
  - destruct (max_timestamp_spec _ _ Hmax) as [(d0 & Hd0 & Ht0) _].
    assert (d0 ∈ filter (λ d, Timestamp d = t) coll) as Hin
      by (by apply list_elem_of_filter).
    rewrite Hnil in Hin. by apply elem_of_nil in Hin.
  - by apply max_timestamp_None in Hmax.
Qed.

(** The selected document is a stored one of greatest timestamp, and one
    is selected as soon as the collection is not empty. *)
Lemma first_by_timestamp_desc_Some pick coll doc :
  first_by_timestamp_desc pick coll = Some doc →
  doc ∈ coll ∧ ∀ d, d ∈ coll → (Timestamp d ≤ Timestamp doc)%Z.
Proof.
  unfold first_by_timestamp_desc. cbv zeta.
  intros Hlk%list_elem_of_lookup_2. by apply latest_documents_elem.
Qed.

Lemma first_by_timestamp_desc_None pick coll :
  first_by_timestamp_desc pick coll = None ↔ coll = [].
Proof.
  unfold first_by_timestamp_desc. cbv zeta. split.
  - intros Hlk. destruct (decide (coll = [])) as [|Hne]; [done |].
    apply latest_documents_nonempty in Hne.
    apply lookup_ge_None in Hlk.
    assert (0 < length (latest_documents coll))
      by (destruct (latest_documents coll); simpl; [done | lia]).
    pose proof (Nat.mod_upper_bound pick (length (latest_documents coll))).
    lia.
  - by intros ->.
Qed.

(** A document stamped after all the others is the one selected,
    whatever the store's choice among equals. *)
Lemma first_by_timestamp_desc_newest pick coll doc :
  (∀ d, d ∈ coll → (Timestamp d < Timestamp doc)%Z) →
  first_by_timestamp_desc pick (coll ++ [doc]) = Some doc.
Proof.
  intros Hlt.
  assert (latest_documents (coll ++ [doc]) = [doc]) as Hlatest.
  { unfold latest_documents.
    destruct (max_timestamp (coll ++ [doc])) as [t|] eqn:Hmax.
    - destruct (max_timestamp_spec _ _ Hmax) as [(d0 & Hd0 & Ht0) Hle].
      assert (t = Timestamp doc) as ->.
      { apply elem_of_app in Hd0 as [Hd0| ->%list_elem_of_singleton];
          [|done].
        specialize (Hlt d0 Hd0).
        assert (Timestamp doc ≤ t)%Z
          by (apply Hle, elem_of_app; right; apply list_elem_of_singleton;
              done).
        lia. }
      rewrite filter_app, filter_none.
      + by rewrite filter_singleton_True.
      + intros d Hd Heq. specialize (Hlt d Hd). lia.
    - apply max_timestamp_None in Hmax. by destruct coll. }
  unfold first_by_timestamp_desc. cbv zeta. rewrite Hlatest.
  change (length [doc]) with 1. by rewrite Nat.mod_1_r.
Qed.

Lemma GetLatestAdjacencyList_ok w :
  env_mongo_error (length (trace w)) = None →
  (GetLatestAdjacencyList w).1 =
    match first_by_timestamp_desc (env_find_pick (length (trace w)))
            (collection w) with
    | Some doc => (Some (AdjacencyList doc), None)
    | None => (None, None)
    end.
Proof.
  intros Hok. unfold GetLatestAdjacencyList, FindOne_latest, emit,
    get_collection, mbind, M_bind, mret, M_ret. simpl.
  rewrite Hok. simpl.
  by destruct (first_by_timestamp_desc _ _).
Qed.



(** C6. On a store without snapshot, [GetLatestAdjacencyList] returns a
    mapping without entries and no error, and [getOCSPromptHandler]
    answers 200 with the context definitions built from the empty
    mapping. *)
Theorem get_latest_empty_store s w :
  collection w = [] →
  env_mongo_error (length (trace w)) = None →
  entries (GetLatestAdjacencyList w).1.1 = ∅ ∧
  (GetLatestAdjacencyList w).1.2 = None ∧
  (getOCSPromptHandler s w).1 =
    {| StatusCode := StatusOK;
       ResponseBody :=
         PromptBody
           {| SpecVersion := "0.1";
              ContextDefinitions :=
                buildContextDefinitions ∅ (ocsConfig s) |} |}.
Proof.
  intros Hempty Hok.
  assert ((GetLatestAdjacencyList w).1 = (None, None)) as Hget.
  { rewrite (GetLatestAdjacencyList_ok _ Hok), Hempty.
    by rewrite (proj2 (first_by_timestamp_desc_None _ [])). }
  rewrite Hget. split_and!; try done.
  unfold getOCSPromptHandler, mbind, M_bind, mret, M_ret.
  destruct (GetLatestAdjacencyList w) as [[m e] w'].
  simpl in Hget. by injection Hget as -> ->.
Qed.

End latest.

(** ** Validation of the collection request *)

Section validation.
Context `{!RangeOrder} `{!GoLib} `{!Env}.

(** Comparing the fields is comparing the instants. *)
Lemma After_lt t u : After t u = bool_decide (u < t)%Z.
Proof.
  unfold After, Time_sec, Time_nsec. cbv zeta.
  pose proof (Z.div_mod t 1000000000 ltac:(lia)) as Ht.
  pose proof (Z.mod_pos_bound t 1000000000 ltac:(lia)) as Htr.
  pose proof (Z.div_mod u 1000000000 ltac:(lia)) as Hu.
  pose proof (Z.mod_pos_bound u 1000000000 ltac:(lia)) as Hur.
  generalize dependent (t `div` 1000000000)%Z.
  generalize dependent (t `mod` 1000000000)%Z.
  generalize dependent (u `div` 1000000000)%Z.
  generalize dependent (u `mod` 1000000000)%Z.
  intros ur Hur uq Hu tr Htr tq Ht.
  repeat case_bool_decide; simpl; try done; lia.
Qed.

(** A request that [parseTimestampParams] rejects is answered 400 with
    an error message, and nothing has left the process: no query to
    Prometheus, no operation on the store. *)
Lemma rejected_before_io s c w err :
  (parseTimestampParams c (ocsConfig s) w).1 = inl err →
  StatusCode (collectIstioMetricsHandler s c w).1 = StatusBadRequest ∧
  (∃ message,
     ResponseBody (collectIstioMetricsHandler s c w).1 = ErrorBody message) ∧
  trace (collectIstioMetricsHandler s c w).2 = trace w ∧
  collection (collectIstioMetricsHandler s c w).2 = collection w.
Proof.
  intros Hrej. unfold collectIstioMetricsHandler.
  destruct (is_nil (Workload (ocsConfig s))); [by eauto |].
  unfold mbind, M_bind.
  revert Hrej. unfold parseTimestampParams. cbv zeta.
  destruct (bool_decide (Query c "from_timestamp" ≠ "")
            || bool_decide (Query c "to_timestamp" ≠ "")).
  - destruct (if bool_decide (Query c "from_timestamp" ≠ "")
              then _ else _) as [e|fromTimestamp];
      [intros _; by eauto |].
    destruct (if bool_decide (Query c "to_timestamp" ≠ "")
              then _ else _) as [e|toTimestamp];
      [intros _; by eauto |].
    unfold mret, M_ret. simpl. intros ->. by eauto.
  - destruct (TimeWindowMinutes (ocsConfig s)); simpl; done.
Qed.

(** A request whose [from_timestamp] parses to a time that is later than
    the time its [to_timestamp] parses to fails validation, and the handler
    answers 400 before any query to Prometheus and any operation on the
    store. The times are those that [time.Parse] and [time.Unix] make of
    the parameters: for Unix seconds beyond the wrap-around of [time.Unix]
    their order is not that of the numbers. *)
Theorem inverted_range_rejected s c w fromTime toTime :
  Query c "from_timestamp" ≠ "" →
  Query c "to_timestamp" ≠ "" →
  parseTimestamp (Query c "from_timestamp") = inr fromTime →
  parseTimestamp (Query c "to_timestamp") = inr toTime →
  (toTime < fromTime)%Z →
  (parseTimestampParams c (ocsConfig s) w).1 =
    inl "from_timestamp must be before to_timestamp" ∧
  StatusCode (collectIstioMetricsHandler s c w).1 = StatusBadRequest ∧
  (∃ message,
     ResponseBody (collectIstioMetricsHandler s c w).1 = ErrorBody message) ∧
  trace (collectIstioMetricsHandler s c w).2 = trace w ∧
  collection (collectIstioMetricsHandler s c w).2 = collection w.
Proof.
  intros Hfrom Hto Hpf Hpt Hlt.
  assert ((parseTimestampParams c (ocsConfig s) w).1 =
            inl "from_timestamp must be before to_timestamp") as Hrej.
  { unfold parseTimestampParams. cbv zeta.
    rewrite !bool_decide_eq_true_2 by done. simpl.
    rewrite Hpf, Hpt. unfold mret, M_ret, validate_range. simpl.
    by rewrite After_lt, bool_decide_eq_true_2. }
  split; [done |]. by eapply rejected_before_io.
Qed.

(** C10. A request with exactly one of [from_timestamp] and
    [to_timestamp] fails validation, and the handler answers 400 before
    any query to Prometheus and any operation on the store. *)
Theorem lone_timestamp_rejected s c w :
  (Query c "from_timestamp" ≠ "" ∧ Query c "to_timestamp" = "") ∨
  (Query c "from_timestamp" = "" ∧ Query c "to_timestamp" ≠ "") →
  (∃ err, (parseTimestampParams c (ocsConfig s) w).1 = inl err) ∧
  StatusCode (collectIstioMetricsHandler s c w).1 = StatusBadRequest ∧
  (∃ message,
     ResponseBody (collectIstioMetricsHandler s c w).1 = ErrorBody message) ∧
  trace (collectIstioMetricsHandler s c w).2 = trace w ∧
  collection (collectIstioMetricsHandler s c w).2 = collection w.
Proof.
  intros Hone.
  assert (∃ err, (parseTimestampParams c (ocsConfig s) w).1 = inl err)
    as [err Hrej].
  { unfold parseTimestampParams. cbv zeta.
    destruct Hone as [[Hfrom ->]|[-> Hto]].
    - rewrite (bool_decide_eq_true_2 _ Hfrom). simpl.
      destruct (parseTimestamp (Query c "from_timestamp")); by eauto.
    - rewrite (bool_decide_eq_true_2 _ Hto). simpl.
      destruct (parseTimestamp (Query c "to_timestamp")); by eauto. }
  split; [by eauto |]. by eapply rejected_before_io.
Qed.

End validation.

(** ** Context assembler *)

Section assembler.
Context `{!RangeOrder}.

Lemma elem_of_go_range {A} (m : gmap string A) (k : string) (x : A) :
  (k, x) ∈ go_range m ↔ m !! k = Some x.
Proof. by rewrite (go_range_perm A m), elem_of_map_to_list. Qed.

Lemma NoDup_go_range_keys {A} (m : gmap string A) : NoDup (go_range m).*1.
Proof. rewrite (go_range_perm A m). apply NoDup_fst_map_to_list. Qed.

Lemma foldl_mark_lookup (l : list string) (ws : gmap string bool) w :
  is_Some (foldl (λ (workloadSet : gmap string bool) (x : string),
                    <[x := true]> workloadSet) ws l !! w) ↔
  is_Some (ws !! w) ∨ w ∈ l.
Proof.
  revert ws. induction l as [|x l IH]; intros ws; simpl.
  - split; [by left | by intros [?|?%elem_of_nil]].
  - rewrite IH, lookup_insert_is_Some, elem_of_cons.
    destruct (decide (x = w)) as [->|]; naive_solver.
Qed.

Lemma foldl_mark_edges_lookup (l : list (string * list string))
    (ws : gmap string bool) w :
  is_Some (foldl (λ (workloadSet : gmap string bool)
                    (kv : string * list string),
                    foldl (λ (workloadSet : gmap string bool) (dest : string),
                             <[dest := true]> workloadSet)
                          (<[kv.1 := true]> workloadSet) kv.2) ws l !! w) ↔
  is_Some (ws !! w) ∨ ∃ kv, kv ∈ l ∧ (w = kv.1 ∨ w ∈ kv.2).
Proof.
  revert ws. induction l as [|kv l IH]; intros ws; simpl.
  - split; [by left |]. by intros [?|(? & ?%elem_of_nil & _)].
  - rewrite IH, foldl_mark_lookup, lookup_insert_is_Some. split.
    + intros [[[<-|[_ ?]]|?]|(kv' & ? & ?)].
      * right. exists kv. split; [left | by left].
      * by left.
      * right. exists kv. split; [left | by right].
      * right. exists kv'. split; [by right | done].
    + intros [?|(kv' & [->|?]%elem_of_cons & Hw)].
      * destruct (decide (kv.1 = w)); [by left; left; left |].
        by left; left; right.
      * destruct Hw as [->|?]; [by left; left; left | by left; right].
      * right. by exists kv'.
Qed.

(** The workloads for which a context definition is built. *)
Lemma workloadSet_of_lookup adjacencyList config w :
  is_Some (workloadSet_of adjacencyList config !! w) ↔
  w ∈ Workload config ∨ is_Some (adjacencyList !! w) ∨
  ∃ source dests, adjacencyList !! source = Some dests ∧ w ∈ dests.
Proof.
  unfold workloadSet_of. cbv zeta.
  rewrite foldl_mark_lookup, foldl_mark_edges_lookup, lookup_empty. split.
  - intros [[[? [=]]|([k ds] & Hin%elem_of_go_range & Hw)]|?];
      [|by left]. simpl in Hw. destruct Hw as [->|?].
    + right; left. by eexists.
    + right; right. by exists k, ds.
  - intros [?|[[ds Hds]|(k & ds & Hds & ?)]]; [by right | |].
    + left; right. exists (w, ds). split; [by apply elem_of_go_range |].
      by left.
    + left; right. exists (k, ds). split; [by apply elem_of_go_range |].
      by right.
Qed.

Lemma foldl_snoc_fmap {A B} (f : A → B) (l : list A) (acc : list B) :
  foldl (λ (acc : list B) (x : A), acc ++ [f x]) acc l = acc ++ (f <$> l).
Proof.
  revert acc. induction l as [|x l IH]; intros acc; simpl.
  - by rewrite app_nil_r.
  - by rewrite IH, <- app_assoc.
Qed.

Lemma buildContextDefinitions_fmap adjacencyList config :
  buildContextDefinitions adjacencyList config =
  contextDef_of adjacencyList config
    <$> (go_range (workloadSet_of adjacencyList config)).*1.
Proof.
  unfold buildContextDefinitions.
  rewrite (foldl_snoc_fmap
             (λ kv : string * bool, contextDef_of adjacencyList config kv.1)).
  simpl. by rewrite <- list_fmap_compose.
Qed.

(** The sources collected by the inner loop of [buildTopology]. *)
Lemma foldl_dependents_inner (dests : list string) source workload
    (acc : list string) s :
  s ∈ foldl (λ (reverseDeps : list string) (dest : string),
               if bool_decide (dest = workload)
               then reverseDeps ++ [source] else reverseDeps) acc dests ↔
  s ∈ acc ∨ (s = source ∧ workload ∈ dests).
Proof.
  revert acc. induction dests as [|dest dests IH]; intros acc; simpl.
  - split; [by left | by intros [?|[_ ?%elem_of_nil]]].
  - rewrite IH. case_bool_decide as Heq.
    + subst dest. rewrite elem_of_app, list_elem_of_singleton, elem_of_cons.
      naive_solver.
    + rewrite elem_of_cons. naive_solver.
Qed.

Lemma foldl_dependents (l : list (string * list string)) workload
    (acc : list string) s :
  s ∈ foldl (λ (reverseDeps : list string) (kv : string * list string),
               foldl (λ (reverseDeps : list string) (dest : string),
                        if bool_decide (dest = workload)
                        then reverseDeps ++ [kv.1] else reverseDeps)
                     reverseDeps kv.2) acc l ↔
  s ∈ acc ∨ ∃ dests, (s, dests) ∈ l ∧ workload ∈ dests.
Proof.
  revert acc. induction l as [|[k ds] l IH]; intros acc; simpl.
  - split; [by left | by intros [?|(? & ?%elem_of_nil & _)]].
  - rewrite IH, foldl_dependents_inner. split.
    + intros [[?|[-> ?]]|(ds' & ? & ?)].
      * by left.
      * right. exists ds. split; [left | done].
      * right. exists ds'. split; [by right | done].
    + intros [?|(ds' & [[= -> ->]|?]%elem_of_cons & ?)].
      * by left; left.
      * by left; right.
      * right. by exists ds'.
Qed.

Lemma reverseDeps_of_elem adjacencyList workload s :
  s ∈ reverseDeps_of adjacencyList workload ↔
  ∃ dests, adjacencyList !! s = Some dests ∧ workload ∈ dests.
Proof.
  unfold reverseDeps_of. rewrite foldl_dependents. split.
  - intros [?%elem_of_nil|(ds & Hin%elem_of_go_range & ?)]; [done |].
    by exists ds.
  - intros (ds & Hds & ?). right. exists ds.
    split; [by apply elem_of_go_range | done].
Qed.

Lemma buildTopology_dependencies adjacencyList workload :
  buildTopology adjacencyList workload !! "dependencies" =
  match adjacencyList !! workload with
  | Some (dest :: dests) => Some (dest :: dests)
  | _ => None
  end.
Proof.
  unfold buildTopology. cbv zeta.
  destruct (is_nil (reverseDeps_of adjacencyList workload)); simpl;
    [|rewrite lookup_insert_ne by done];
    by destruct (adjacencyList !! workload) as [[|dest dests]|].
Qed.

Lemma buildTopology_dependents adjacencyList workload :
  buildTopology adjacencyList workload !! "dependents" =
  match reverseDeps_of adjacencyList workload with
  | [] => None
  | source :: sources => Some (source :: sources)
  end.
Proof.
  unfold buildTopology. cbv zeta.
  destruct (reverseDeps_of adjacencyList workload) as [|source sources];
    simpl; [|by rewrite lookup_insert_eq].
  by destruct (adjacencyList !! workload) as [[|dest dests]|].
Qed.

(** A topology without field is left out of the context definition, so
    reading a field through [Topology] is reading it in what
    [buildTopology] returns. *)
Lemma contextDef_of_field adjacencyList config workload field :
  Topology (contextDef_of adjacencyList config workload)
    ≫= (λ topology, topology !! field) =
  buildTopology adjacencyList workload !! field.
Proof.
  unfold contextDef_of. cbv zeta. simpl. case_bool_decide as Hsize; [done |].
  assert (size (buildTopology adjacencyList workload) = 0) as Hzero by lia.
  apply map_size_empty_inv in Hzero. rewrite Hzero. simpl.
  by rewrite lookup_empty.
Qed.

(** C1. [buildContextDefinitions] produces one context definition per
    workload of the configured list, of the sources and of the
    destinations of the adjacency mapping, and no other. For the workload
    [w], [dependencies] is [adjacency[w]] when that entry is there and not
    empty and is left out otherwise; [dependents] holds exactly the
    sources [s] with [w] in [adjacency[s]] and is left out when there is
    none. *)
Theorem assemble_contexts (adjacencyList : gmap string (list string))
    (config : OCSConfig) :
  ∃ workloads : list string,
    NoDup workloads ∧
    (∀ w, w ∈ workloads ↔
          w ∈ Workload config ∨ is_Some (adjacencyList !! w) ∨
          ∃ source dests, adjacencyList !! source = Some dests ∧ w ∈ dests) ∧
    Forall2
      (λ (w : string) (c : OCSContextDefinition),
         ResourceID c = "workload-" +:+ w ∧
         Identity c = {[ "workload" := AnyString w ]} ∧
         dependencies_of c =
           match adjacencyList !! w with
           | Some (dest :: dests) => Some (dest :: dests)
           | _ => None
           end ∧
         match dependents_of c with
         | Some sources =>
             sources ≠ [] ∧
             ∀ s, s ∈ sources ↔
                  ∃ dests, adjacencyList !! s = Some dests ∧ w ∈ dests
         | None =>
             ∀ s dests, adjacencyList !! s = Some dests → w ∉ dests
         end)
      workloads (buildContextDefinitions adjacencyList config).
Proof.
  exists (go_range (workloadSet_of adjacencyList config)).*1. split_and!.
  - apply NoDup_go_range_keys.
  - intros w. rewrite <- workloadSet_of_lookup, list_elem_of_fmap. split.
    + intros ([k b] & -> & Hin%elem_of_go_range). by eexists.
    + intros [b Hb]. exists (w, b). split; [done |].
      by apply elem_of_go_range.
  - rewrite buildContextDefinitions_fmap. apply Forall2_fmap_r.
    apply Forall_Forall2_diag, Forall_forall. intros w _.
    split_and!; try done.
    + unfold dependencies_of.
      by rewrite contextDef_of_field, buildTopology_dependencies.
    + unfold dependents_of.
      rewrite contextDef_of_field, buildTopology_dependents.
      pose proof (reverseDeps_of_elem adjacencyList w) as Helem.
      destruct (reverseDeps_of adjacencyList w) as [|source sources].
      * intros s dests Hs Hw.
        assert (s ∈ @nil string) as Hin by (apply Helem; by exists dests).
        by apply elem_of_nil in Hin.
      * split; [done | exact Helem].
Qed.

End assembler.

(** ** Flattening of a ranged response *)

Section flattening.
Context `{!RangeOrder} `{!Env}.

Lemma synthesize_metrics entries acc w :
  Metric <$> (synthesize entries acc w).1 = (Metric <$> acc) ++ entries.*2.
Proof.
  revert acc w. induction entries as [|[k v] entries IH]; intros acc w; simpl.
  - by rewrite app_nil_r.
  - unfold mbind, M_bind, time_Now. simpl. rewrite IH.
    by rewrite fmap_app, <- app_assoc.
Qed.

(** Every synthesized entry carries the dummy value: a clock reading
    and the text [1]. *)
Lemma synthesize_values entries acc w :
  Forall (λ r, ∃ now, Value r = [AnyInt64 now; AnyString "1"]) acc →
  Forall (λ r, ∃ now, Value r = [AnyInt64 now; AnyString "1"])
    (synthesize entries acc w).1.
Proof.
  revert acc w. induction entries as [|[k v] entries IH]; intros acc w Hacc;
    simpl; [done |].
  unfold mbind, M_bind, time_Now. simpl. apply IH.
  apply Forall_app. split; [done |].
  apply Forall_singleton. by eexists.
Qed.

Lemma convert_metrics rangeResult w :
  Metric <$> Result (convertRangeToInstantResult rangeResult w).1 =
  (go_range (uniqueMetrics_of rangeResult)).*2.
Proof.
  unfold convertRangeToInstantResult, mbind, M_bind, mret, M_ret. cbv zeta.
  pose proof (synthesize_metrics (go_range (uniqueMetrics_of rangeResult)) [] w)
    as Hsyn.
  destruct (synthesize _ [] w) as [result w']. simpl in *. exact Hsyn.
Qed.

(** The timestamps and sample values of the series play no part: the
    flattened result depends on the label sets alone. *)
Lemma convert_ignores_values rangeResult rangeResult' w :
  RStatus rangeResult = RStatus rangeResult' →
  RMetric <$> RResult rangeResult = RMetric <$> RResult rangeResult' →
  convertRangeToInstantResult rangeResult w =
  convertRangeToInstantResult rangeResult' w.
Proof.
  intros Hstatus Hmetrics.
  assert (uniqueMetrics_of rangeResult = uniqueMetrics_of rangeResult')
    as Hunique.
  { unfold uniqueMetrics_of.
    generalize (∅ : gmap string (gmap string string)).
    revert Hmetrics. generalize (RResult rangeResult').
    induction (RResult rangeResult) as [|r rs IH]; intros [|r' rs'] Heq m;
      simpl in *; try done.
    injection Heq as Hr Hrs.
    unfold unique_step at 2 4. rewrite Hr. by apply IH. }
  unfold convertRangeToInstantResult. by rewrite Hunique, Hstatus.
Qed.

(** The keys under which the label sets are remembered. *)
Lemma unique_step_lookup um r key labels :
  unique_step um r !! key = Some labels →
  um !! key = Some labels ∨ (key = Sprintf_v (RMetric r) ∧ labels = RMetric r).
Proof.
  unfold unique_step. cbv zeta.
  destruct (um !! Sprintf_v (RMetric r)) eqn:Hkey; [by left |].
  destruct (decide (key = Sprintf_v (RMetric r))) as [->|Hne].
  - rewrite lookup_insert_eq. intros [= <-]. by right.
  - rewrite lookup_insert_ne by done. by left.
Qed.

Lemma unique_step_keeps um r key labels :
  um !! key = Some labels → unique_step um r !! key = Some labels.
Proof.
  intros Hkey. unfold unique_step. cbv zeta.
  destruct (um !! Sprintf_v (RMetric r)) eqn:Hr; [done |].
  rewrite lookup_insert_ne; [done |]. intros <-. congruence.
Qed.

Lemma unique_step_is_Some um r :
  is_Some (unique_step um r !! Sprintf_v (RMetric r)).
Proof.
  unfold unique_step. cbv zeta.
  destruct (um !! Sprintf_v (RMetric r)) eqn:Hr; [by eexists |].
  rewrite lookup_insert_eq. by eexists.
Qed.

Lemma foldl_unique_lookup rs um key labels :
  foldl unique_step um rs !! key = Some labels →
  um !! key = Some labels ∨
  ∃ r, r ∈ rs ∧ key = Sprintf_v (RMetric r) ∧ labels = RMetric r.
Proof.
  revert um. induction rs as [|r rs IH]; intros um; simpl; [by left |].
  intros [[?|[-> ->]]%unique_step_lookup|(r' & ? & ?)]%IH.
  - by left.
  - right. exists r. split; [left | done].
  - right. exists r'. split; [by right | done].
Qed.

Lemma foldl_unique_keeps rs um key labels :
  um !! key = Some labels → foldl unique_step um rs !! key = Some labels.
Proof.
  revert um. induction rs as [|r rs IH]; intros um Hkey; simpl; [done |].
  by apply IH, unique_step_keeps.
Qed.

Lemma foldl_unique_is_Some rs um r :
  r ∈ rs → is_Some (foldl unique_step um rs !! Sprintf_v (RMetric r)).
Proof.
  revert um. induction rs as [|r' rs IH]; intros um; [by intros ?%elem_of_nil |].
  intros [->|Hin]%elem_of_cons; simpl; [|by apply IH].
  destruct (unique_step_is_Some um r') as [labels Hl].
  exists labels. by apply foldl_unique_keeps.
Qed.

(** Where the printed keys tell the label sets of the response apart,
    the flattened result has one entry per label set of the response. *)
Lemma convert_one_entry_per_label_set rangeResult w :
  (∀ r r', r ∈ RResult rangeResult → r' ∈ RResult rangeResult →
           Sprintf_v (RMetric r) = Sprintf_v (RMetric r') →
           RMetric r = RMetric r') →
  NoDup (Metric <$> Result (convertRangeToInstantResult rangeResult w).1) ∧
  ∀ labels,
    labels ∈ Metric <$> Result (convertRangeToInstantResult rangeResult w).1 ↔
    ∃ r, r ∈ RResult rangeResult ∧ RMetric r = labels.
Proof.
  intros Hinj. rewrite convert_metrics.
  unfold uniqueMetrics_of. split.
  - rewrite (go_range_perm _ (foldl unique_step ∅ (RResult rangeResult))).
    apply NoDup_fmap_2_strong; [|apply NoDup_map_to_list].
    intros [k1 l1] [k2 l2] H1%elem_of_map_to_list H2%elem_of_map_to_list Heq.
    simpl in Heq. subst l2.
    apply foldl_unique_lookup in H1 as [H1|(r1 & ? & -> & ->)];
      [by rewrite lookup_empty in H1 |].
    apply foldl_unique_lookup in H2 as [H2|(r2 & ? & -> & Hl)];
      [by rewrite lookup_empty in H2 |].
    by rewrite Hl.
  - intros labels. rewrite list_elem_of_fmap. split.
    + intros ([k l] & -> & Hin%elem_of_go_range). simpl.
      apply foldl_unique_lookup in Hin as [Hin|(r & ? & _ & ->)];
        [by rewrite lookup_empty in Hin |].
      by exists r.
    + intros (r & Hr & <-).
      destruct (foldl_unique_is_Some _ ∅ r Hr) as [labels Hl].
      exists (Sprintf_v (RMetric r), labels).
      split; [|by apply elem_of_go_range].
      simpl. apply foldl_unique_lookup in Hl as [Hl|(r' & Hr' & Hkey & ->)];
        [by rewrite lookup_empty in Hl |].
      by apply Hinj.
Qed.

(** C5, at the response [colliding_response]. Its two series have
    different label sets, and the flattened result holds a single
    entry: both label sets are remembered under the same printed key. *)
Theorem convert_merges_colliding_label_sets w :
  labels_joined ≠ labels_split ∧
  Sprintf_v labels_joined = Sprintf_v labels_split ∧
  Metric <$> Result (convertRangeToInstantResult colliding_response w).1 =
    [labels_joined].
Proof.
  split_and!.
  - intros Heq.
    assert (labels_joined !! "source_workload" =
            labels_split !! "source_workload") as Hlk by (by rewrite Heq).
    by vm_compute in Hlk.
  - by vm_compute.
  - rewrite convert_metrics.
    assert (uniqueMetrics_of colliding_response =
            {[ Sprintf_v labels_joined := labels_joined ]}) as ->.
    { unfold uniqueMetrics_of, colliding_response. simpl.
      unfold unique_step at 2. cbv zeta. simpl RMetric.
      rewrite lookup_empty.
      unfold unique_step. cbv zeta. simpl RMetric.
      replace (Sprintf_v labels_split) with (Sprintf_v labels_joined)
        by (by vm_compute).
      by rewrite lookup_insert_eq. }
    pose proof (go_range_perm _
      ({[ Sprintf_v labels_joined := labels_joined ]}
         : gmap string (gmap string string))) as Hperm.
    rewrite map_to_list_singleton in Hperm.
    apply Permutation_singleton_r in Hperm. by rewrite Hperm.
Qed.

End flattening.

(** * The theorems on concrete inputs *)

Lemma extract_no_duplicate_destination_witness :
  ExtractAdjacencyList sample_result !! "app" = Some ["db"; "cache"] ∧
  NoDup ["db"; "cache"] ∧
  ∀ destination,
    destination ∈ ["db"; "cache"] ↔
    ∃ r, r ∈ Result sample_result ∧ carries_edge r "app" destination.
Proof.
  assert (ExtractAdjacencyList sample_result !! "app" = Some ["db"; "cache"])
    as Hlk by (vm_compute; reflexivity).
  split; [exact Hlk |].
  exact (extract_no_duplicate_destination sample_result "app" ["db"; "cache"] Hlk).
Defined.

Lemma extract_drops_unlabelled_witness :
  Metric unlabelled_sample !! "source_workload" = None ∧
  ExtractAdjacencyList
    {| Status := "success"; ResultType := "vector";
       Result := [edge_sample "app" "db"] ++
                 unlabelled_sample :: [edge_sample "proxy" "app"] |} =
  ExtractAdjacencyList
    {| Status := "success"; ResultType := "vector";
       Result := [edge_sample "app" "db"] ++ [edge_sample "proxy" "app"] |}.
Proof.
  assert (Metric unlabelled_sample !! "source_workload" = None) as Hmiss
    by (vm_compute; reflexivity).
  split; [exact Hmiss |].
  exact (extract_drops_unlabelled "success" "vector" [edge_sample "app" "db"]
           unlabelled_sample [edge_sample "proxy" "app"] (or_introl Hmiss)).
Defined.

Lemma save_counts_witness :
  @env_mongo_error (calm_env 1000000000 0) (length (trace empty_world)) = None ∧
  ∃ doc,
    collection
      (@SaveAdjacencyList trie_order (calm_env 1000000000 0)
         topology_two empty_world).2 = collection empty_world ++ [doc] ∧
    (@SaveAdjacencyList trie_order (calm_env 1000000000 0)
       topology_two empty_world).1 = (ID doc, None) ∧
    AdjacencyList doc = topology_two ∧
    TotalConnections doc =
      Z.of_nat (sum_list_with (λ source, length (slice_at topology_two source))
                  (elements (dom topology_two))) ∧
    SourceCount doc = Z.of_nat (size (dom topology_two)).
Proof.
  split; [reflexivity |].
  exact (@save_counts trie_order (calm_env 1000000000 0) topology_two
           empty_world eq_refl).
Defined.



Lemma get_latest_empty_store_witness :
  collection empty_world = [] ∧
  entries (@GetLatestAdjacencyList (calm_env 1000000000 0) empty_world).1.1 = ∅ ∧
  (@GetLatestAdjacencyList (calm_env 1000000000 0) empty_world).1.2 = None ∧
  (@getOCSPromptHandler trie_order (calm_env 1000000000 0)
     sample_server empty_world).1 =
    {| StatusCode := StatusOK;
       ResponseBody :=
         PromptBody
           {| SpecVersion := "0.1";
              ContextDefinitions :=
                @buildContextDefinitions trie_order ∅ (ocsConfig sample_server) |} |}.
Proof.
  split; [reflexivity |].
  exact (@get_latest_empty_store trie_order (calm_env 1000000000 0)
           sample_server empty_world eq_refl eq_refl).
Defined.

Lemma inverted_range_rejected_witness :
  @parseTimestamp small_lib (Query inverted_request "from_timestamp") =
    inr 1704153600000000000%Z ∧
  @parseTimestamp small_lib (Query inverted_request "to_timestamp") =
    inr 1704067200000000000%Z ∧
  (@parseTimestampParams small_lib (calm_env 1000000000 0) inverted_request
     (ocsConfig sample_server) empty_world).1 =
    inl "from_timestamp must be before to_timestamp" ∧
  StatusCode
    (@collectIstioMetricsHandler trie_order small_lib (calm_env 1000000000 0)
       sample_server inverted_request empty_world).1 = StatusBadRequest ∧
  (∃ message,
     ResponseBody
       (@collectIstioMetricsHandler trie_order small_lib (calm_env 1000000000 0)
          sample_server inverted_request empty_world).1 = ErrorBody message) ∧
  trace
    (@collectIstioMetricsHandler trie_order small_lib (calm_env 1000000000 0)
       sample_server inverted_request empty_world).2 = trace empty_world ∧
  collection
    (@collectIstioMetricsHandler trie_order small_lib (calm_env 1000000000 0)
       sample_server inverted_request empty_world).2 = collection empty_world.
Proof.
  assert (@parseTimestamp small_lib (Query inverted_request "from_timestamp") =
            inr 1704153600000000000%Z) as Hfrom by (vm_compute; reflexivity).
  assert (@parseTimestamp small_lib (Query inverted_request "to_timestamp") =
            inr 1704067200000000000%Z) as Hto by (vm_compute; reflexivity).
  split; [exact Hfrom |]. split; [exact Hto |].
  refine (@inverted_range_rejected trie_order small_lib (calm_env 1000000000 0)
            sample_server inverted_request empty_world
            1704153600000000000%Z 1704067200000000000%Z _ _ Hfrom Hto _).
  - vm_compute. discriminate.
  - vm_compute. discriminate.
  - reflexivity.
Defined.

Lemma lone_timestamp_rejected_witness :
  (Query from_only_request "from_timestamp" ≠ "" ∧
   Query from_only_request "to_timestamp" = "") ∧
  (∃ err,
     (@parseTimestampParams small_lib (calm_env 1000000000 0) from_only_request
        (ocsConfig sample_server) empty_world).1 = inl err) ∧
  StatusCode
    (@collectIstioMetricsHandler trie_order small_lib (calm_env 1000000000 0)
       sample_server from_only_request empty_world).1 = StatusBadRequest ∧
  (∃ message,
     ResponseBody
       (@collectIstioMetricsHandler trie_order small_lib (calm_env 1000000000 0)
          sample_server from_only_request empty_world).1 = ErrorBody message) ∧
  trace
    (@collectIstioMetricsHandler trie_order small_lib (calm_env 1000000000 0)
       sample_server from_only_request empty_world).2 = trace empty_world ∧
  collection
    (@collectIstioMetricsHandler trie_order small_lib (calm_env 1000000000 0)
       sample_server from_only_request empty_world).2 = collection empty_world.
Proof.
  assert (Query from_only_request "from_timestamp" ≠ "" ∧
          Query from_only_request "to_timestamp" = "") as Hone.
  { split; [vm_compute; discriminate | vm_compute; reflexivity]. }
  split; [exact Hone |].
  exact (@lone_timestamp_rejected trie_order small_lib (calm_env 1000000000 0)
           sample_server from_only_request empty_world (or_introl Hone)).
Defined.

(** ** The assembler on the examples of the specification *)

Example assemble_without_topology :
  (λ c, (ResourceID c, Topology c))
    <$> @buildContextDefinitions trie_order ∅ config_ab =
  [("workload-a", None); ("workload-b", None)].
Proof. vm_compute. reflexivity. Qed.

Example assemble_single_edge :
  topology_view <$> @buildContextDefinitions trie_order {[ "a" := ["b"] ]} config_ab =
  [("workload-a", Some ["b"], None); ("workload-b", None, Some ["a"])].
Proof. vm_compute. reflexivity. Qed.

Example assemble_end_to_end :
  topology_view
    <$> @buildContextDefinitions trie_order
          (<[ "app" := ["database"; "cache"] ]> {[ "proxy" := ["app"] ]})
          sample_config =
  [("workload-cache", None, Some ["app"]);
   ("workload-app", Some ["database"; "cache"], Some ["proxy"]);
   ("workload-database", None, Some ["app"]);
   ("workload-proxy", Some ["app"], None)].
Proof. vm_compute. reflexivity. Qed.

(** A collection run in a calm world: one query to Prometheus, then one
    insertion into the store. *)
Example collect_trace :
  trace (@collectIstioMetricsHandler trie_order small_lib
           (calm_env 1000000000 0) sample_server ∅ empty_world).2 =
  [PrometheusQuery
     ("istio_requests_total{source_workload=~" +:+ dquote +:+
      "database|cache|app|proxy" +:+ dquote +:+ "}");
   MongoInsertOne
     (@new_document trie_order 1%N 1700000000000000000%Z
        (ExtractAdjacencyList sample_result))].
Proof. vm_compute. reflexivity. Qed.

(** * Further properties *)

(** ** The extractor as a function of its input *)

Section extract_more.

Lemma extract_step_destination adj r s :
  slice_at (extract_step adj r) s =
  match destination_for s r with
  | Some d => if decide (d ∈ slice_at adj s) then slice_at adj s
              else slice_at adj s ++ [d]
  | None => slice_at adj s
  end.
Proof.
  rewrite extract_step_slice. unfold destination_for. cbv zeta.
  set (source := label (Metric r) "source_workload").
  set (destination := label (Metric r) "destination_workload").
  destruct (decide (source = s ∧ source ≠ "" ∧ destination ≠ ""))
    as [(<- & Hs & Hd)|Hno].
  - rewrite (bool_decide_eq_true_2 (source = source ∧ _)) by done.
    destruct (decide (destination ∈ slice_at adj source)) as [Hin|Hin].
    + rewrite bool_decide_eq_false_2; [done | naive_solver].
    + by rewrite bool_decide_eq_true_2.
  - rewrite (bool_decide_eq_false_2 (source = s ∧ _)) by done.
    rewrite bool_decide_eq_false_2; [done | naive_solver].
Qed.

Lemma foldl_extract_add_new rs adj s :
  slice_at (foldl extract_step adj rs) s =
  foldl add_new (slice_at adj s) (omap (destination_for s) rs).
Proof.
  revert adj. induction rs as [|r rs IH]; intros adj; simpl; [done |].
  rewrite IH, extract_step_destination.
  by destruct (destination_for s r).
Qed.

Lemma elem_of_foldl_add_new l acc x :
  x ∈ foldl add_new acc l ↔ x ∈ acc ∨ x ∈ l.
Proof.
  revert acc. induction l as [|y l IH]; intros acc; simpl.
  - split; [by left | by intros [?|?%elem_of_nil]].
  - rewrite IH, elem_of_cons. unfold add_new.
    destruct (decide (y ∈ acc)); [naive_solver |].
    rewrite elem_of_app, list_elem_of_singleton. naive_solver.
Qed.

Lemma foldl_add_new_first_occurrences l :
  foldl add_new [] l = first_occurrences l.
Proof.
  unfold first_occurrences.
  induction l as [|x l IH] using rev_ind; [done |].
  rewrite foldl_app, reverse_app. simpl. rewrite IH.
  change (reverse [x]) with [x]. simpl.
  unfold add_new.
  destruct (decide_rel elem_of x (reverse l)) as [Hin|Hin].
  - rewrite decide_True; [done |].
    by rewrite elem_of_reverse, elem_of_remove_dups.
  - rewrite decide_False.
    + by rewrite reverse_cons.
    + by rewrite elem_of_reverse, elem_of_remove_dups.
Qed.

(** The destinations of a source are listed in the order in which the
    input first shows them: the list is the sequence of the destinations
    that the entries bring to the source, without its repeats. *)
Theorem extract_first_occurrence_order result source :
  slice_at (ExtractAdjacencyList result) source =
  first_occurrences (omap (destination_for source) (Result result)).
Proof.
  unfold ExtractAdjacencyList.
  rewrite foldl_extract_add_new, slice_at_empty.
  apply foldl_add_new_first_occurrences.
Qed.

Lemma extract_dom_carries result source :
  source ∈ dom (ExtractAdjacencyList result) ↔
  ∃ r destination, r ∈ Result result ∧ carries_edge r source destination.
Proof.
  unfold ExtractAdjacencyList. rewrite elem_of_dom. split.
  - intros [ds Hds].
    assert (ds ≠ []) as Hne.
    { eapply (foldl_extract_nonempty _ ∅); [|exact Hds].
      intros s' ds'. by rewrite lookup_empty. }
    destruct ds as [|d ds]; [done |].
    assert (d ∈ slice_at (foldl extract_step ∅ (Result result)) source) as Hin
      by (unfold slice_at; rewrite Hds; left).
    apply foldl_extract_elem in Hin as [Hin|(r & Hr & Hedge)].
    + rewrite slice_at_empty in Hin. by apply elem_of_nil in Hin.
    + by exists r, d.
  - intros (r & d & Hr & Hedge).
    assert (d ∈ slice_at (foldl extract_step ∅ (Result result)) source) as Hin
      by (apply foldl_extract_elem; right; by exists r).
    unfold slice_at in Hin.
    destruct (foldl extract_step ∅ (Result result) !! source); [by eexists |].
    by apply elem_of_nil in Hin.
Qed.

(** The sources of the extracted map are the workloads for which some
    entry carries an edge. *)
Theorem extract_sources result source :
  source ∈ dom (ExtractAdjacencyList result) ↔
  ∃ r destination, r ∈ Result result ∧ carries_edge r source destination.
Proof. apply extract_dom_carries. Qed.

Lemma extract_step_known adj r :
  (∀ s d, carries_edge r s d → d ∈ slice_at adj s) →
  extract_step adj r = adj.
Proof.
  intros Hknown. unfold extract_step. cbv zeta.
  set (source := label (Metric r) "source_workload").
  set (destination := label (Metric r) "destination_workload").
  destruct (bool_decide_reflect (source ≠ "")) as [Hs|Hs]; simpl; [|done].
  destruct (bool_decide_reflect (destination ≠ "")) as [Hd|Hd]; simpl; [|done].
  assert (destination ∈ slice_at adj source) as Hin
    by (apply Hknown, label_carries; by split_and!).
  destruct (is_nil (slice_at adj source)) eqn:Hnil.
  - apply is_nil_true in Hnil. rewrite Hnil in Hin.
    by apply elem_of_nil in Hin.
  - apply contains_spec in Hin. by rewrite Hin.
Qed.

(** Entries that the response already holds change nothing when they come
    again: the extracted map is that of the response without the
    repetition. *)
Theorem extract_absorbs_repeats status resultType rs again :
  again ⊆ rs →
  ExtractAdjacencyList
    {| Status := status; ResultType := resultType; Result := rs ++ again |} =
  ExtractAdjacencyList
    {| Status := status; ResultType := resultType; Result := rs |}.
Proof.
  intros Hsub. unfold ExtractAdjacencyList. simpl. rewrite foldl_app.
  induction again as [|r again IH]; simpl; [done |].
  rewrite extract_step_known.
  - apply IH. intros x Hx. apply Hsub. by right.
  - intros s d Hedge. apply foldl_extract_elem. right. exists r.
    split; [apply Hsub; left | done].
Qed.

(** A label that is there with the empty string as value counts as a
    label that is not there: the entry is left out as well. *)
Theorem extract_drops_empty_label status resultType before r after :
  label (Metric r) "source_workload" = "" ∨
  label (Metric r) "destination_workload" = "" →
  ExtractAdjacencyList
    {| Status := status; ResultType := resultType;
       Result := before ++ r :: after |} =
  ExtractAdjacencyList
    {| Status := status; ResultType := resultType;
       Result := before ++ after |}.
Proof.
  intros Hempty. unfold ExtractAdjacencyList. simpl.
  rewrite !foldl_app. simpl. rewrite extract_step_known; [done |].
  intros s d (Hs & Hd & ? & ?)%label_carries.
  destruct Hempty; congruence.
Qed.

End extract_more.

(** ** What a snapshot of an extracted mapping counts *)

Section snapshot_counts.
Context `{!RangeOrder}.

Lemma edge_of_carries r s d :
  edge_of r = Some (s, d) ↔ carries_edge r s d.
Proof.
  rewrite label_carries. unfold edge_of. cbv zeta.
  case_bool_decide as Hc; [|naive_solver].
  destruct Hc. split; [intros [= <- <-] | intros (-> & -> & _)]; done.
Qed.

Lemma elem_of_edges_of rs s d :
  (s, d) ∈ edges_of rs ↔ ∃ r, r ∈ rs ∧ carries_edge r s d.
Proof.
  unfold edges_of. rewrite elem_of_list_to_set, list_elem_of_omap.
  by setoid_rewrite edge_of_carries.
Qed.

Lemma elem_of_edge_list m s d :
  (s, d) ∈ edge_list m ↔ d ∈ slice_at m s.
Proof.
  unfold edge_list. rewrite list_elem_of_bind. split.
  - intros ([k ds] & Hin & Hkv%elem_of_map_to_list). simpl in Hin.
    apply list_elem_of_fmap in Hin as (d' & [= -> ->] & Hd').
    unfold slice_at. by rewrite Hkv.
  - intros Hd. unfold slice_at in Hd.
    destruct (m !! s) as [ds|] eqn:Hs; [|by apply elem_of_nil in Hd].
    exists (s, ds). split; [|by apply elem_of_map_to_list].
    simpl. apply list_elem_of_fmap. by exists d.
Qed.

Lemma length_edge_list m :
  length (edge_list m) =
  sum_list_with (λ kv : string * list string, length kv.2) (map_to_list m).
Proof.
  unfold edge_list. induction (map_to_list m) as [|kv l IH]; [done |].
  rewrite bind_cons, length_app, length_fmap. simpl. by rewrite IH.
Qed.

Lemma NoDup_edge_list m :
  (∀ s, NoDup (slice_at m s)) → NoDup (edge_list m).
Proof.
  intros Hnd. unfold edge_list. apply NoDup_bind.
  - intros [k1 ds1] [k2 ds2] y H1%elem_of_map_to_list H2%elem_of_map_to_list.
    simpl. intros (d1 & -> & _)%list_elem_of_fmap.
    intros (d2 & [= <- _] & _)%list_elem_of_fmap. congruence.
  - intros [k ds] Hkv%elem_of_map_to_list. simpl.
    apply NoDup_fmap_2; [by intros ?? [=] |].
    specialize (Hnd k). unfold slice_at in Hnd. by rewrite Hkv in Hnd.
  - apply NoDup_map_to_list.
Qed.

(** The snapshot made of an extracted mapping records, as
    [TotalConnections], the number of distinct edges that the entries of
    the response carry and, as [SourceCount], the number of distinct
    sources of these edges. *)
Theorem snapshot_counts_distinct_edges id now result :
  TotalConnections (new_document id now (ExtractAdjacencyList result)) =
    Z.of_nat (size (edges_of (Result result))) ∧
  SourceCount (new_document id now (ExtractAdjacencyList result)) =
    Z.of_nat (size (set_map (D := gset string) fst (edges_of (Result result)))).
Proof.
  simpl. split.
  - rewrite totalConnections_of_sum, <- sum_entries_sources.
    rewrite <- length_edge_list. f_equal.
    rewrite <- (size_list_to_set (C := gset (string * string)))
      by (apply NoDup_edge_list, foldl_extract_NoDup;
          intros s; rewrite slice_at_empty; constructor).
    f_equal. apply set_eq. intros [s d].
    rewrite elem_of_list_to_set, elem_of_edge_list, elem_of_edges_of.
    unfold ExtractAdjacencyList. rewrite foldl_extract_elem, slice_at_empty.
    split; [intros [?%elem_of_nil|?]; done | by right].
  - rewrite <- size_dom. do 2 f_equal. apply set_eq. intros s.
    rewrite extract_dom_carries, elem_of_map. split.
    + intros (r & d & Hr & Hedge). exists (s, d).
      split; [done |]. apply elem_of_edges_of. by exists r.
    + intros ([s' d] & -> & (r & Hr & Hedge)%elem_of_edges_of).
      by exists r, d.
Qed.

End snapshot_counts.

(** ** The query client *)

Section query_client.
Context `{!RangeOrder} `{!Env}.

Lemma synthesize_world entries acc w :
  (synthesize entries acc w).2 =
  {| collection := collection w; trace := trace w;
     clock_reads := clock_reads w + length entries;
     ids_made := ids_made w |}.
Proof.
  revert acc w. induction entries as [|[k v] entries IH]; intros acc w; simpl.
  - destruct w. simpl. by rewrite Nat.add_0_r.
  - unfold mbind, M_bind, time_Now. simpl. rewrite IH. simpl.
    f_equal. lia.
Qed.

Lemma synthesize_length entries acc w :
  length (synthesize entries acc w).1 = length acc + length entries.
Proof.
  revert acc w. induction entries as [|[k v] entries IH]; intros acc w; simpl.
  - lia.
  - unfold mbind, M_bind, time_Now. simpl. rewrite IH, length_app. simpl. lia.
Qed.

Lemma convert_world rangeResult w :
  (convertRangeToInstantResult rangeResult w).2 =
  {| collection := collection w; trace := trace w;
     clock_reads := clock_reads w + size (uniqueMetrics_of rangeResult);
     ids_made := ids_made w |}.
Proof.
  unfold convertRangeToInstantResult, mbind, M_bind, mret, M_ret. cbv zeta.
  pose proof (synthesize_world (go_range (uniqueMetrics_of rangeResult)) [] w)
    as Hw.
  destruct (synthesize _ [] w) as [result w']. simpl in *. rewrite Hw.
  f_equal. f_equal.
  rewrite (go_range_perm _ (uniqueMetrics_of rangeResult)).
  by rewrite length_map_to_list.
Qed.

Lemma convert_status rangeResult w :
  Status (convertRangeToInstantResult rangeResult w).1 = RStatus rangeResult.
Proof.
  unfold convertRangeToInstantResult, mbind, M_bind, mret, M_ret. cbv zeta.
  by destruct (synthesize _ [] w).
Qed.

Lemma convert_values rangeResult w :
  Forall (λ r, ∃ now, Value r = [AnyInt64 now; AnyString "1"])
    (Result (convertRangeToInstantResult rangeResult w).1).
Proof.
  unfold convertRangeToInstantResult, mbind, M_bind, mret, M_ret. cbv zeta.
  pose proof (synthesize_values (go_range (uniqueMetrics_of rangeResult)) [] w
                (Forall_nil_2 _)) as Hv.
  by destruct (synthesize _ [] w).
Qed.

Lemma foldl_unique_size rs um :
  size (foldl unique_step um rs) ≤ size um + length rs.
Proof.
  revert um. induction rs as [|r rs IH]; intros um; simpl; [lia |].
  etrans; [apply IH |].
  unfold unique_step. cbv zeta.
  destruct (um !! Sprintf_v (RMetric r)) eqn:Hr; [lia |].
  rewrite map_size_insert_None by done. lia.
Qed.

(** Whatever the response, the flattened result repeats no label set,
    takes every label set from a series of the response, has for every
    series an entry that prints like it, is no longer than the response,
    carries the response's status, and gives every entry the dummy value:
    a clock reading in seconds and the text [1]. *)
Theorem convert_entries_from_response rangeResult w :
  let flat := (convertRangeToInstantResult rangeResult w).1 in
  Status flat = RStatus rangeResult ∧
  NoDup (Metric <$> Result flat) ∧
  (∀ labels, labels ∈ Metric <$> Result flat →
             ∃ r, r ∈ RResult rangeResult ∧ RMetric r = labels) ∧
  (∀ r, r ∈ RResult rangeResult →
        ∃ labels, labels ∈ Metric <$> Result flat ∧
                  Sprintf_v labels = Sprintf_v (RMetric r)) ∧
  length (Result flat) ≤ length (RResult rangeResult) ∧
  Forall (λ entry, ∃ now, Value entry = [AnyInt64 now; AnyString "1"])
    (Result flat).
Proof.
  cbv zeta. split_and!.
  - apply convert_status.
  - rewrite convert_metrics.
    rewrite (go_range_perm _ (uniqueMetrics_of rangeResult)).
    apply NoDup_fmap_2_strong; [|apply NoDup_map_to_list].
    intros [k1 l1] [k2 l2] H1%elem_of_map_to_list H2%elem_of_map_to_list Heq.
    simpl in Heq. subst l2. unfold uniqueMetrics_of in *.
    apply foldl_unique_lookup in H1 as [H1|(r1 & ? & -> & ->)];
      [by rewrite lookup_empty in H1 |].
    apply foldl_unique_lookup in H2 as [H2|(r2 & ? & -> & Hl)];
      [by rewrite lookup_empty in H2 |].
    by rewrite Hl.
  - intros labels. rewrite convert_metrics, list_elem_of_fmap.
    intros ([k l] & -> & Hin%elem_of_go_range). simpl.
    apply foldl_unique_lookup in Hin as [Hin|(r & ? & _ & ->)];
      [by rewrite lookup_empty in Hin |].
    by exists r.
  - intros r Hr. rewrite convert_metrics.
    destruct (foldl_unique_is_Some _ ∅ r Hr) as [labels Hl].
    exists labels. split.
    + apply list_elem_of_fmap. exists (Sprintf_v (RMetric r), labels).
      split; [done | by apply elem_of_go_range].
    + apply foldl_unique_lookup in Hl as [Hl|(r' & _ & Hkey & ->)];
        [by rewrite lookup_empty in Hl | done].
  - rewrite <- (length_fmap Metric), convert_metrics, length_fmap.
    rewrite (go_range_perm _ (uniqueMetrics_of rangeResult)).
    rewrite length_map_to_list. unfold uniqueMetrics_of.
    etrans; [apply foldl_unique_size |]. by rewrite map_size_empty.
  - apply convert_values.
Qed.

Lemma queryInstant_world query w :
  (queryInstant query w).2 =
  {| collection := collection w; trace := trace w ++ [PrometheusQuery query];
     clock_reads := clock_reads w; ids_made := ids_made w |}.
Proof.
  unfold queryInstant, emit, mbind, M_bind, mret, M_ret. simpl.
  destruct (env_prometheus_instant _ _) as [e|e|code body [e|result]];
    try done; repeat case_bool_decide; done.
Qed.

Lemma queryRange_frame query f t w :
  collection (queryRange query f t w).2 = collection w ∧
  trace (queryRange query f t w).2 =
    trace w ++ [PrometheusQueryRange query (Unix f) (Unix t) "15s"] ∧
  ids_made (queryRange query f t w).2 = ids_made w.
Proof.
  unfold queryRange, emit, mbind, M_bind, mret, M_ret. cbv zeta. simpl.
  destruct (env_prometheus_range _ _ _ _ _) as [e|e|code body [e|rr]];
    try done; repeat case_bool_decide; try done.
  pose proof (convert_world rr
    {| collection := collection w;
       trace := trace w ++ [PrometheusQueryRange query (Unix f) (Unix t) "15s"];
       clock_reads := clock_reads w; ids_made := ids_made w |}) as Hw.
  destruct (convertRangeToInstantResult rr _) as [r w']. simpl in *.
  by rewrite Hw.
Qed.

Lemma QueryMetrics_frame sourceWorkloads f t w :
  sourceWorkloads ≠ [] →
  collection (QueryMetrics sourceWorkloads f t w).2 = collection w ∧
  trace (QueryMetrics sourceWorkloads f t w).2 =
    trace w ++ [request_of sourceWorkloads f t] ∧
  ids_made (QueryMetrics sourceWorkloads f t w).2 = ids_made w.
Proof.
  intros Hne. unfold QueryMetrics, request_of, istio_query.
  destruct sourceWorkloads as [|x ws]; [done |]. cbv zeta.
  change (is_nil (x :: ws)) with false. cbv iota.
  destruct f as [f|], t as [t|];
    try (rewrite queryInstant_world; done).
  apply queryRange_frame.
Qed.

(** Without source workload [QueryMetrics] fails and nothing leaves the
    process; otherwise exactly one request goes to Prometheus (a range
    query from the seconds of the two timestamps with step [15s] when both
    are there, an instant query when one of them or both are missing) and
    the store is not touched. *)
Theorem QueryMetrics_one_request sourceWorkloads fromTimestamp toTimestamp w :
  match sourceWorkloads with
  | [] =>
      QueryMetrics sourceWorkloads fromTimestamp toTimestamp w =
        (inl "no source workloads provided", w)
  | _ :: _ =>
      trace (QueryMetrics sourceWorkloads fromTimestamp toTimestamp w).2 =
        trace w ++ [request_of sourceWorkloads fromTimestamp toTimestamp] ∧
      collection (QueryMetrics sourceWorkloads fromTimestamp toTimestamp w).2 =
        collection w
  end.
Proof.
  destruct sourceWorkloads as [|x ws]; [done |].
  by destruct (QueryMetrics_frame (x :: ws) fromTimestamp toTimestamp w)
    as (? & ? & ?).
Qed.

Lemma queryInstant_success query w result :
  (queryInstant query w).1 = inr result →
  Status result = "success" ∧
  ∃ body,
    env_prometheus_instant (length (trace w)) query =
      Replied 200 body (inr result).
Proof.
  unfold queryInstant, emit, mbind, M_bind, mret, M_ret. simpl.
  destruct (env_prometheus_instant _ _) as [e|e|code body [e|r]]; try done.
  - by case_bool_decide.
  - case_bool_decide as Hcode; [done |].
    case_bool_decide as Hstatus; [done |]. simpl. intros [= <-].
    subst code. split; [done | by eexists].
Qed.

Lemma queryRange_success query f t w result :
  (queryRange query f t w).1 = inr result →
  Status result = "success" ∧
  ∃ body rangeResult,
    env_prometheus_range (length (trace w)) query (Unix f) (Unix t) "15s" =
      Replied 200 body (inr rangeResult) ∧
    RStatus rangeResult = "success" ∧
    Metric <$> Result result = (go_range (uniqueMetrics_of rangeResult)).*2.
Proof.
  unfold queryRange, emit, mbind, M_bind, mret, M_ret. cbv zeta. simpl.
  destruct (env_prometheus_range _ _ _ _ _) as [e|e|code body [e|rr]];
    try done.
  - by case_bool_decide.
  - case_bool_decide as Hcode; [done |].
    case_bool_decide as Hstatus; [done |].
    subst code.
    set (w1 := {| collection := collection w;
                  trace := trace w ++ [PrometheusQueryRange query (Unix f) (Unix t) "15s"];
                  clock_reads := clock_reads w; ids_made := ids_made w |}).
    pose proof (convert_status rr w1) as Hst.
    pose proof (convert_metrics rr w1) as Hm.
    destruct (convertRangeToInstantResult rr w1) as [r w']. simpl in *.
    intros [= <-]. split; [congruence |].
    exists body, rr. by split_and!.
Qed.

(** [QueryMetrics] hands out a result only for a reply with status code
    200 whose body decodes and announces [success]; the result carries the
    status [success]. On an instant query it is the decoded body itself,
    on a range query its label sets are those remembered from the body. *)
Theorem QueryMetrics_success sourceWorkloads fromTimestamp toTimestamp w result :
  (QueryMetrics sourceWorkloads fromTimestamp toTimestamp w).1 = inr result →
  sourceWorkloads ≠ [] ∧
  Status result = "success" ∧
  match fromTimestamp, toTimestamp with
  | Some f, Some t =>
      ∃ body rangeResult,
        env_prometheus_range (length (trace w)) (istio_query sourceWorkloads)
          (Unix f) (Unix t) "15s" = Replied 200 body (inr rangeResult) ∧
        RStatus rangeResult = "success" ∧
        Metric <$> Result result = (go_range (uniqueMetrics_of rangeResult)).*2
  | _, _ =>
      ∃ body,
        env_prometheus_instant (length (trace w)) (istio_query sourceWorkloads) =
          Replied 200 body (inr result)
  end.
Proof.
  unfold QueryMetrics, istio_query.
  destruct sourceWorkloads as [|x ws]; [done |]. cbv zeta.
  change (is_nil (x :: ws)) with false. cbv iota.
  intros Hres. split; [done |].
  destruct fromTimestamp as [f|], toTimestamp as [t|];
    try (by apply queryInstant_success in Hres as [? ?]).
  by apply queryRange_success in Hres as [? ?].
Qed.

End query_client.

(** ** The two handlers *)

Section service.
Context `{!RangeOrder} `{!GoLib} `{!Env}.

Lemma parseTimestampParams_frame c config w :
  collection (parseTimestampParams c config w).2 = collection w ∧
  trace (parseTimestampParams c config w).2 = trace w ∧
  ids_made (parseTimestampParams c config w).2 = ids_made w.
Proof.
  unfold parseTimestampParams. cbv zeta.
  destruct (bool_decide (Query c "from_timestamp" ≠ "")
            || bool_decide (Query c "to_timestamp" ≠ "")).
  - destruct (if bool_decide (Query c "from_timestamp" ≠ "")
              then _ else _) as [e|fromTimestamp]; [done |].
    by destruct (if bool_decide (Query c "to_timestamp" ≠ "")
                 then _ else _) as [e|toTimestamp].
  - by destruct (TimeWindowMinutes config).
Qed.

Lemma SaveAdjacencyList_cases adjacencyList w :
  let doc := new_document (env_object_id (ids_made w))
               (env_clock (clock_reads w)) adjacencyList in
  trace (SaveAdjacencyList adjacencyList w).2 =
    trace w ++ [MongoInsertOne doc] ∧
  (((SaveAdjacencyList adjacencyList w).1 = (ID doc, None) ∧
    collection (SaveAdjacencyList adjacencyList w).2 = collection w ++ [doc]) ∨
   (∃ err, (SaveAdjacencyList adjacencyList w).1 = (NilObjectID, Some err) ∧
           collection (SaveAdjacencyList adjacencyList w).2 = collection w)).
Proof.
  cbv zeta.
  unfold SaveAdjacencyList, InsertOne, NewObjectID, time_Now,
    emit, append_document, mbind, M_bind, mret, M_ret. simpl.
  destruct (env_mongo_error (length (trace w))) as [err|]; simpl.
  - split; [done |]. right. by eexists.
  - split; [done |]. by left.
Qed.

Lemma collect_cases s c w :
  let out := collectIstioMetricsHandler s c w in
  (∃ result id now response,
     let doc := new_document id now (ExtractAdjacencyList result) in
     StatusCode out.1 = StatusOK ∧
     ResponseBody out.1 = CollectBody response ∧
     adjacency_list response = AdjacencyList doc ∧
     document_id response = ID doc ∧
     collection out.2 = collection w ++ [doc] ∧
     last (trace out.2) = Some (MongoInsertOne doc)) ∨
  (∃ message,
     StatusCode out.1 ≠ StatusOK ∧
     ResponseBody out.1 = ErrorBody message ∧
     collection out.2 = collection w).
Proof.
  cbv zeta. unfold collectIstioMetricsHandler.
  destruct (is_nil (Workload (ocsConfig s))) eqn:Hnil.
  { right. by eexists. }
  assert (Workload (ocsConfig s) ≠ []) as Hne
    by (intros Heq; by rewrite Heq in Hnil).
  unfold mbind, M_bind.
  pose proof (parseTimestampParams_frame c (ocsConfig s) w) as (Hc1 & _ & _).
  destruct (parseTimestampParams c (ocsConfig s) w) as [[err|[f t]] w1].
  { right. by eexists. }
  simpl in Hc1.
  pose proof (QueryMetrics_frame (Workload (ocsConfig s)) f t w1 Hne)
    as (Hc2 & _ & _).
  destruct (QueryMetrics (Workload (ocsConfig s)) f t w1) as [[err|result] w2].
  { right. eexists. split_and!; [done | done |]. simpl in *. congruence. }
  simpl in Hc2.
  pose proof (SaveAdjacencyList_cases (ExtractAdjacencyList result) w2)
    as (Htr & Hsave).
  destruct (SaveAdjacencyList (ExtractAdjacencyList result) w2)
    as [[docID err] w3].
  simpl in Htr, Hsave.
  destruct Hsave as [[[= -> ->] Hc3]|(e & [= -> ->] & Hc3)].
  - left. exists result, (env_object_id (ids_made w2)),
      (env_clock (clock_reads w2)). eexists. cbv zeta.
    unfold time_Now, mret, M_ret. simpl.
    split_and!; try reflexivity.
    + rewrite Hc3. congruence.
    + rewrite Htr. by rewrite last_snoc.
  - right. eexists. split_and!; [done | done |]. simpl. congruence.
Qed.


(** A snapshot that [collectIstioMetricsHandler] appends is well formed:
    every source has a destination list without repeat and without being
    empty, [TotalConnections] is the sum of the lengths of these lists and
    [SourceCount] the number of sources. *)
Theorem collect_snapshot_well_formed s c w doc :
  collection (collectIstioMetricsHandler s c w).2 = collection w ++ [doc] →
  (∀ source dests,
     AdjacencyList doc !! source = Some dests → dests ≠ [] ∧ NoDup dests) ∧
  TotalConnections doc =
    Z.of_nat (sum_list_with (λ source, length (slice_at (AdjacencyList doc) source))
                (elements (dom (AdjacencyList doc)))) ∧
  SourceCount doc = Z.of_nat (size (dom (AdjacencyList doc))).
Proof.
  intros Hcoll.
  destruct (collect_cases s c w)
    as [(result & id & now & response & Hok)|(message & _ & _ & Hsame)].
  - cbv zeta in Hok. destruct Hok as (_ & _ & _ & _ & Hc & _).
    rewrite Hc in Hcoll. apply app_inv_head in Hcoll. injection Hcoll as <-.
    simpl. split_and!.
    + intros source dests Hlk. split.
      * eapply (foldl_extract_nonempty _ ∅); [|exact Hlk].
        intros s' ds'. by rewrite lookup_empty.
      * assert (slice_at (ExtractAdjacencyList result) source = dests) as <-
          by (unfold slice_at; by rewrite Hlk).
        apply foldl_extract_NoDup. intros s'. rewrite slice_at_empty.
        constructor.
    + apply totalConnections_of_sum.
    + by rewrite size_dom.
  - rewrite Hsame in Hcoll.
    apply (f_equal length) in Hcoll. rewrite length_app in Hcoll.
    simpl in Hcoll. lia.
Qed.

Lemma getOCSPromptHandler_world s w :
  (getOCSPromptHandler s w).2 =
  {| collection := collection w; trace := trace w ++ [MongoFindOne];
     clock_reads := clock_reads w; ids_made := ids_made w |}.
Proof.
  unfold getOCSPromptHandler, GetLatestAdjacencyList, FindOne_latest, emit,
    get_collection, mbind, M_bind, mret, M_ret. simpl.
  destruct (env_mongo_error (length (trace w))) as [err|]; simpl; [done |].
  by destruct (first_by_timestamp_desc _ _).
Qed.

Lemma getOCSPromptHandler_ok s w :
  env_mongo_error (length (trace w)) = None →
  (getOCSPromptHandler s w).1 =
  {| StatusCode := StatusOK;
     ResponseBody :=
       PromptBody
         {| SpecVersion := "0.1";
            ContextDefinitions :=
              buildContextDefinitions
                (match first_by_timestamp_desc
                         (env_find_pick (length (trace w))) (collection w) with
                 | Some doc => AdjacencyList doc
                 | None => ∅
                 end) (ocsConfig s) |} |}.
Proof.
  intros Hok.
  unfold getOCSPromptHandler, GetLatestAdjacencyList, FindOne_latest, emit,
    get_collection, mbind, M_bind, mret, M_ret. simpl. rewrite Hok. simpl.
  by destruct (first_by_timestamp_desc _ _).
Qed.

(** [getOCSPromptHandler] only reads: one [FindOne] leaves the process and
    the collection, the clock and the id counter are as before. When the
    store fails the answer is 500 with the store's error; otherwise it is
    200 with the context definitions of a stored snapshot of greatest
    timestamp, or of the empty mapping when nothing is stored. *)
Theorem prompt_reads_only s w :
  let out := getOCSPromptHandler s w in
  out.2 =
    {| collection := collection w; trace := trace w ++ [MongoFindOne];
       clock_reads := clock_reads w; ids_made := ids_made w |} ∧
  match env_mongo_error (length (trace w)) with
  | Some err =>
      out.1 =
        error_response StatusInternalServerError
          ("Failed to retrieve topology from MongoDB: " +:+
           ("failed to query MongoDB: " +:+ err))
  | None =>
      ∃ adjacencyList,
        out.1 =
          {| StatusCode := StatusOK;
             ResponseBody :=
               PromptBody
                 {| SpecVersion := "0.1";
                    ContextDefinitions :=
                      buildContextDefinitions adjacencyList (ocsConfig s) |} |} ∧
        ((collection w = [] ∧ adjacencyList = ∅) ∨
         ∃ doc,
           doc ∈ collection w ∧
           (∀ d, d ∈ collection w → (Timestamp d ≤ Timestamp doc)%Z) ∧
           adjacencyList = AdjacencyList doc)
  end.
Proof.
  cbv zeta. split; [apply getOCSPromptHandler_world |].
  destruct (env_mongo_error (length (trace w))) as [err|] eqn:Herr.
  - unfold getOCSPromptHandler, GetLatestAdjacencyList, FindOne_latest, emit,
      get_collection, mbind, M_bind, mret, M_ret. simpl. by rewrite Herr.
  - eexists. split; [by apply getOCSPromptHandler_ok |].
    destruct (first_by_timestamp_desc _ _) as [doc|] eqn:Hfirst.
    + right. exists doc.
      destruct (first_by_timestamp_desc_Some _ _ _ Hfirst). by split_and!.
    + left. by apply first_by_timestamp_desc_None in Hfirst.
Qed.

(** Collect, then read. When [collectIstioMetricsHandler] has answered
    200 with a snapshot stamped later than all that was stored and the
    store answers the next read, [getOCSPromptHandler] builds its context
    definitions from the mapping that the collection answered with. *)
Theorem collect_then_prompt s c w :
  let collected := collectIstioMetricsHandler s c w in
  StatusCode collected.1 = StatusOK →
  (∀ d doc, d ∈ collection w →
            last (collection collected.2) = Some doc →
            (Timestamp d < Timestamp doc)%Z) →
  env_mongo_error (length (trace collected.2)) = None →
  ∃ response,
    ResponseBody collected.1 = CollectBody response ∧
    (getOCSPromptHandler s collected.2).1 =
      {| StatusCode := StatusOK;
         ResponseBody :=
           PromptBody
             {| SpecVersion := "0.1";
                ContextDefinitions :=
                  buildContextDefinitions (adjacency_list response)
                    (ocsConfig s) |} |}.
Proof.
  cbv zeta. intros Hstatus Hnewer Hok.
  destruct (collect_cases s c w)
    as [(result & id & now & response & Hcase)|(message & Hne & _)];
    [|done].
  cbv zeta in Hcase. destruct Hcase as (_ & Hbody & Hadj & _ & Hcoll & _).
  exists response. split; [done |].
  rewrite (getOCSPromptHandler_ok _ _ Hok), Hcoll.
  rewrite first_by_timestamp_desc_newest; [by rewrite Hadj |].
  intros d Hd. apply (Hnewer d); [done |]. by rewrite Hcoll, last_snoc.
Qed.

Lemma collect_trace_cases s c w :
  let out := collectIstioMetricsHandler s c w in
  trace out.2 = trace w ∨
  ∃ f t w1,
    Workload (ocsConfig s) ≠ [] ∧
    parseTimestampParams c (ocsConfig s) w = (inr (f, t), w1) ∧
    (trace out.2 = trace w ++ [request_of (Workload (ocsConfig s)) f t] ∨
     ∃ doc,
       trace out.2 =
         trace w ++ [request_of (Workload (ocsConfig s)) f t;
                     MongoInsertOne doc]).
Proof.
  cbv zeta. unfold collectIstioMetricsHandler.
  destruct (is_nil (Workload (ocsConfig s))) eqn:Hnil; [by left |].
  assert (Workload (ocsConfig s) ≠ []) as Hne
    by (intros Heq; by rewrite Heq in Hnil).
  unfold mbind, M_bind.
  pose proof (parseTimestampParams_frame c (ocsConfig s) w) as (_ & Ht1 & _).
  destruct (parseTimestampParams c (ocsConfig s) w) as [[err|[f t]] w1].
  { by left. }
  simpl in Ht1. right. exists f, t, w1. split; [done |]. split; [done |].
  pose proof (QueryMetrics_frame (Workload (ocsConfig s)) f t w1 Hne)
    as (_ & Ht2 & _).
  destruct (QueryMetrics (Workload (ocsConfig s)) f t w1) as [[err|result] w2].
  { left. simpl in *. congruence. }
  simpl in Ht2.
  pose proof (SaveAdjacencyList_cases (ExtractAdjacencyList result) w2)
    as (Htr & _).
  destruct (SaveAdjacencyList (ExtractAdjacencyList result) w2)
    as [[docID [err|]] w3]; simpl in Htr.
  - right. eexists. simpl. rewrite Htr, Ht2, Ht1.
    by rewrite <- app_assoc.
  - right. eexists. unfold time_Now, mret, M_ret. simpl.
    rewrite Htr, Ht2, Ht1. by rewrite <- app_assoc.
Qed.

(** What [collectIstioMetricsHandler] lets out of the process is nothing,
    or one request to Prometheus, or that request followed by one
    insertion: it never reads the store and never asks Prometheus
    twice. *)
Theorem collect_io_shape s c w :
  ∃ events,
    trace (collectIstioMetricsHandler s c w).2 = trace w ++ events ∧
    (events = [] ∨
     ∃ f t,
       events = [request_of (Workload (ocsConfig s)) f t] ∨
       ∃ doc,
         events = [request_of (Workload (ocsConfig s)) f t;
                   MongoInsertOne doc]).
Proof.
  destruct (collect_trace_cases s c w)
    as [Hsame|(f & t & w1 & _ & _ & [Hone|[doc Htwo]])].
  - exists []. split; [by rewrite app_nil_r | by left].
  - eexists. split; [exact Hone |]. right. exists f, t. by left.
  - eexists. split; [exact Htwo |]. right. exists f, t. right. by exists doc.
Qed.

Lemma wrap64_small z : (- 2 ^ 63 ≤ z < 2 ^ 63)%Z → wrap64 z = z.
Proof.
  intros Hz. unfold wrap64. rewrite Z.mod_small; lia.
Qed.

Lemma parseTimestampParams_shape c config w fromTimestamp toTimestamp :
  (parseTimestampParams c config w).1 = inr (fromTimestamp, toTimestamp) →
  (is_Some fromTimestamp ↔ is_Some toTimestamp) ∧
  (Query c "from_timestamp" ≠ "" ∨ Query c "to_timestamp" ≠ "" →
   ∃ fromTime toTime,
     Query c "from_timestamp" ≠ "" ∧ Query c "to_timestamp" ≠ "" ∧
     parseTimestamp (Query c "from_timestamp") = inr fromTime ∧
     parseTimestamp (Query c "to_timestamp") = inr toTime ∧
     fromTimestamp = Some fromTime ∧ toTimestamp = Some toTime ∧
     After fromTime toTime = false ∧ (fromTime ≤ toTime)%Z).
Proof.
  unfold parseTimestampParams. cbv zeta.
  destruct (bool_decide_reflect (Query c "from_timestamp" ≠ "")) as [Hf|Hf];
    destruct (bool_decide_reflect (Query c "to_timestamp" ≠ "")) as [Ht|Ht];
    simpl.
  - destruct (parseTimestamp (Query c "from_timestamp")) as [e|a]; [done |].
    destruct (parseTimestamp (Query c "to_timestamp")) as [e|b]; [done |].
    unfold mret, M_ret, validate_range. simpl.
    destruct (After a b) eqn:Hab; [done |]. intros [= <- <-].
    split; [by split; eauto |]. intros _. exists a, b. split_and!; try done.
    rewrite After_lt in Hab. apply bool_decide_eq_false in Hab. lia.
  - destruct (parseTimestamp (Query c "from_timestamp")) as [e|a]; done.
  - destruct (parseTimestamp (Query c "to_timestamp")) as [e|b]; done.
  - destruct (TimeWindowMinutes config) as [minutes|]; simpl;
      unfold mret, M_ret; simpl; intros [= <- <-].
    + split; [by split; eauto |]. by intros [?|?].
    + split; [by split; intros [? [=]] |]. by intros [?|?].
Qed.

(** With timestamps in the request, a range that passes validation has
    both ends, each the parse of its parameter, and [After] does not hold
    from its start to its end: as times, the start is not later than the
    end. (For Unix seconds so large that [time.Unix] wraps around, the
    order of the times is not the order of the numbers in the request.)
    A range with one end only is never handed on. *)
Theorem parseTimestampParams_accepts c config w fromTimestamp toTimestamp :
  (parseTimestampParams c config w).1 = inr (fromTimestamp, toTimestamp) →
  (is_Some fromTimestamp ↔ is_Some toTimestamp) ∧
  (Query c "from_timestamp" ≠ "" ∨ Query c "to_timestamp" ≠ "" →
   ∃ fromTime toTime,
     Query c "from_timestamp" ≠ "" ∧ Query c "to_timestamp" ≠ "" ∧
     parseTimestamp (Query c "from_timestamp") = inr fromTime ∧
     parseTimestamp (Query c "to_timestamp") = inr toTime ∧
     fromTimestamp = Some fromTime ∧ toTimestamp = Some toTime ∧
     After fromTime toTime = false ∧ (fromTime ≤ toTime)%Z).
Proof. apply parseTimestampParams_shape. Qed.

Lemma parseTimestampParams_window_used c config w fromTimestamp toTimestamp :
  Query c "from_timestamp" = "" →
  Query c "to_timestamp" = "" →
  (parseTimestampParams c config w).1 = inr (fromTimestamp, toTimestamp) →
  (is_Some fromTimestamp ↔ is_Some (TimeWindowMinutes config)).
Proof.
  intros Hf Ht. unfold parseTimestampParams. cbv zeta. rewrite Hf, Ht. simpl.
  destruct (TimeWindowMinutes config) as [minutes|]; simpl;
    unfold mret, M_ret; simpl; intros [= <- <-].
  - by split; eauto.
  - by split; intros [? [=]].
Qed.

(** Without timestamps in the request the configured window decides:
    with no window the query is an instant one and the clock is not
    read; with a window of [minutes] the range runs from [minutes]
    minutes before the clock reading to that reading, as long as the
    window in nanoseconds fits 64 bits. Such a range is handed on as it
    is: a negative window gives a start after the end. *)
Theorem parseTimestampParams_window c config w :
  Query c "from_timestamp" = "" →
  Query c "to_timestamp" = "" →
  match TimeWindowMinutes config with
  | None => parseTimestampParams c config w = (inr (None, None), w)
  | Some minutes =>
      (- 2 ^ 63 < minutes * 60000000000 < 2 ^ 63)%Z →
      (parseTimestampParams c config w).1 =
        inr (Some (env_clock (clock_reads w) - minutes * 60000000000)%Z,
             Some (env_clock (clock_reads w)))
  end.
Proof.
  intros Hf Ht. unfold parseTimestampParams. cbv zeta. rewrite Hf, Ht.
  simpl. destruct (TimeWindowMinutes config) as [minutes|]; [|done].
  intros Hfit. unfold mbind, M_bind, time_Now, mret, M_ret. simpl.
  rewrite (wrap64_small minutes) by lia.
  rewrite (wrap64_small (minutes * 60000000000)) by lia.
  rewrite wrap64_small by lia.
  by replace (env_clock (clock_reads w) + - (minutes * 60000000000))%Z
    with (env_clock (clock_reads w) - minutes * 60000000000)%Z by lia.
Qed.

Lemma wrap64_range z : (- 2 ^ 63 ≤ wrap64 z < 2 ^ 63)%Z.
Proof.
  unfold wrap64.
  pose proof (Z.mod_pos_bound (z + 2 ^ 63) (2 ^ 64) ltac:(lia)). lia.
Qed.

(** Reading back the seconds of [time.Unix(sec, 0)] gives [sec], also
    where the seconds field has wrapped around. *)
Lemma Unix_time_Unix sec :
  (- 2 ^ 63 ≤ sec < 2 ^ 63)%Z → Unix (time_Unix sec) = sec.
Proof.
  intros Hsec. unfold Unix, Time_sec, time_Unix. rewrite Z.div_mul by lia.
  replace (wrap64 (sec + unixToInternal) - unixToInternal + unixToInternal
           - unixToInternal)%Z
    with (wrap64 (sec + unixToInternal) - unixToInternal)%Z by lia.
  unfold wrap64, unixToInternal.
  pose proof (Z.div_mod (sec + 62135596800 + 2 ^ 63) (2 ^ 64) ltac:(lia)) as Hd1.
  pose proof (Z.mod_pos_bound (sec + 62135596800 + 2 ^ 63) (2 ^ 64) ltac:(lia))
    as Hm1.
  generalize dependent ((sec + 62135596800 + 2 ^ 63) `div` 2 ^ 64)%Z.
  generalize dependent ((sec + 62135596800 + 2 ^ 63) `mod` 2 ^ 64)%Z.
  intros m1 Hm1 q1 Hd1.
  pose proof (Z.div_mod (m1 - 2 ^ 63 - 62135596800 + 2 ^ 63) (2 ^ 64)
                ltac:(lia)) as Hd2.
  pose proof (Z.mod_pos_bound (m1 - 2 ^ 63 - 62135596800 + 2 ^ 63) (2 ^ 64)
                ltac:(lia)) as Hm2.
  generalize dependent ((m1 - 2 ^ 63 - 62135596800 + 2 ^ 63) `div` 2 ^ 64)%Z.
  generalize dependent ((m1 - 2 ^ 63 - 62135596800 + 2 ^ 63) `mod` 2 ^ 64)%Z.
  intros m2 Hm2 q2 Hd2. lia.
Qed.

(** Below the wrap-around [time.Unix(sec, 0)] is the instant [sec]
    seconds after the epoch. *)
Lemma time_Unix_small sec :
  (- 2 ^ 63 ≤ sec ≤ 9223371974719179007)%Z →
  time_Unix sec = (sec * 1000000000)%Z.
Proof.
  intros Hsec. unfold time_Unix.
  rewrite wrap64_small by (unfold unixToInternal; lia). lia.
Qed.

(** Both timestamps as Unix seconds: what the handler does when [After]
    does not hold between the two times. *)
Lemma collect_unix_query_sent s c w fromSec toSec :
  Workload (ocsConfig s) ≠ [] →
  Query c "from_timestamp" ≠ "" →
  Query c "to_timestamp" ≠ "" →
  time_Parse_RFC3339 (Query c "from_timestamp") = None →
  time_Parse_RFC3339 (Query c "to_timestamp") = None →
  strconv_ParseInt (Query c "from_timestamp") = Some fromSec →
  strconv_ParseInt (Query c "to_timestamp") = Some toSec →
  (- 2 ^ 63 ≤ fromSec < 2 ^ 63)%Z →
  (- 2 ^ 63 ≤ toSec < 2 ^ 63)%Z →
  After (time_Unix fromSec) (time_Unix toSec) = false →
  (parseTimestampParams c (ocsConfig s) w).1 =
    inr (Some (time_Unix fromSec), Some (time_Unix toSec)) ∧
  StatusCode (collectIstioMetricsHandler s c w).1 ≠ StatusBadRequest ∧
  ∃ rest,
    trace (collectIstioMetricsHandler s c w).2 =
      trace w ++
      PrometheusQueryRange (istio_query (Workload (ocsConfig s)))
        fromSec toSec "15s" :: rest.
Proof.
  intros Hne Hf Ht Hrf Hrt Hpf Hpt Hfr Htr Hafter.
  assert (parseTimestampParams c (ocsConfig s) w =
            (inr (Some (time_Unix fromSec), Some (time_Unix toSec)), w))
    as Hparse.
  { unfold parseTimestampParams, parseTimestamp. cbv zeta.
    rewrite !bool_decide_eq_true_2 by done. simpl.
    rewrite Hrf, Hrt, Hpf, Hpt. unfold mret, M_ret, validate_range.
    by rewrite Hafter. }
  split; [by rewrite Hparse |].
  unfold collectIstioMetricsHandler.
  destruct (Workload (ocsConfig s)) as [|x ws] eqn:Hws; [done |].
  change (is_nil (x :: ws)) with false. cbv iota.
  unfold mbind, M_bind. rewrite Hparse.
  pose proof (QueryMetrics_frame (x :: ws) (Some (time_Unix fromSec))
                (Some (time_Unix toSec)) w ltac:(done)) as (_ & Htrace & _).
  unfold request_of in Htrace. rewrite !Unix_time_Unix in Htrace by done.
  destruct (QueryMetrics _ _ _ w) as [[err|result] w2]; simpl in Htrace.
  - simpl. split; [done |]. exists []. exact Htrace.
  - pose proof (SaveAdjacencyList_cases (ExtractAdjacencyList result) w2)
      as (Htrace2 & _).
    destruct (SaveAdjacencyList _ w2) as [[docID [err|]] w3];
      simpl in Htrace2; unfold time_Now, mret, M_ret; simpl;
      (split; [done |]); eexists; rewrite Htrace2, Htrace;
      by rewrite <- app_assoc.
Qed.

(** A request with both timestamps as Unix seconds, in order and below
    the wrap-around of [time.Unix], leads to one range query to Prometheus
    with exactly these seconds as start and end. *)
Theorem collect_unix_range_query s c w fromSec toSec :
  Workload (ocsConfig s) ≠ [] →
  Query c "from_timestamp" ≠ "" →
  Query c "to_timestamp" ≠ "" →
  time_Parse_RFC3339 (Query c "from_timestamp") = None →
  time_Parse_RFC3339 (Query c "to_timestamp") = None →
  strconv_ParseInt (Query c "from_timestamp") = Some fromSec →
  strconv_ParseInt (Query c "to_timestamp") = Some toSec →
  (- 2 ^ 63 ≤ fromSec)%Z →
  (fromSec ≤ toSec)%Z →
  (toSec ≤ 9223371974719179007)%Z →
  ∃ rest,
    trace (collectIstioMetricsHandler s c w).2 =
      trace w ++
      PrometheusQueryRange (istio_query (Workload (ocsConfig s)))
        fromSec toSec "15s" :: rest.
Proof.
  intros Hne Hf Ht Hrf Hrt Hpf Hpt Hlow Hle Hhigh.
  eapply collect_unix_query_sent; try eassumption; try lia.
  rewrite After_lt, !time_Unix_small by lia.
  apply bool_decide_eq_false_2. lia.
Qed.

(** C8, at the request [overflow_request]. Its [from_timestamp],
    9223372036854775807 seconds, is after its [to_timestamp], 0 seconds.
    [time.Unix] wraps the seconds field of the first around, [After] does
    not hold, validation passes, and the handler does not answer 400: it
    sends Prometheus a range query that starts 9223372036854775807 and
    ends 0. *)
Theorem inverted_range_accepted_on_wrap s w :
  Workload (ocsConfig s) ≠ [] →
  time_Parse_RFC3339 "9223372036854775807" = None →
  time_Parse_RFC3339 "0" = None →
  strconv_ParseInt "9223372036854775807" = Some 9223372036854775807%Z →
  strconv_ParseInt "0" = Some 0%Z →
  After (time_Unix 9223372036854775807) (time_Unix 0) = false ∧
  (parseTimestampParams overflow_request (ocsConfig s) w).1 =
    inr (Some (time_Unix 9223372036854775807), Some (time_Unix 0)) ∧
  StatusCode (collectIstioMetricsHandler s overflow_request w).1 ≠
    StatusBadRequest ∧
  ∃ rest,
    trace (collectIstioMetricsHandler s overflow_request w).2 =
      trace w ++
      PrometheusQueryRange (istio_query (Workload (ocsConfig s)))
        9223372036854775807 0 "15s" :: rest.
Proof.
  intros Hne Hrf Hrt Hpf Hpt.
  assert (After (time_Unix 9223372036854775807) (time_Unix 0) = false)
    as Hafter by (vm_compute; reflexivity).
  split; [exact Hafter |].
  apply collect_unix_query_sent; try done.
Qed.

(** Both timestamps as Unix seconds below the wrap-around of
    [time.Unix], the first greater than the second: validation fails and
    the handler answers 400 before any query to Prometheus and any
    operation on the store. *)
Theorem unix_inverted_range_rejected s c w fromSec toSec :
  Query c "from_timestamp" ≠ "" →
  Query c "to_timestamp" ≠ "" →
  time_Parse_RFC3339 (Query c "from_timestamp") = None →
  time_Parse_RFC3339 (Query c "to_timestamp") = None →
  strconv_ParseInt (Query c "from_timestamp") = Some fromSec →
  strconv_ParseInt (Query c "to_timestamp") = Some toSec →
  (- 2 ^ 63 ≤ toSec)%Z →
  (toSec < fromSec)%Z →
  (fromSec ≤ 9223371974719179007)%Z →
  (parseTimestampParams c (ocsConfig s) w).1 =
    inl "from_timestamp must be before to_timestamp" ∧
  StatusCode (collectIstioMetricsHandler s c w).1 = StatusBadRequest ∧
  (∃ message,
     ResponseBody (collectIstioMetricsHandler s c w).1 = ErrorBody message) ∧
  trace (collectIstioMetricsHandler s c w).2 = trace w ∧
  collection (collectIstioMetricsHandler s c w).2 = collection w.
Proof.
  intros Hf Ht Hrf Hrt Hpf Hpt Hlow Hlt Hhigh.
  assert ((parseTimestampParams c (ocsConfig s) w).1 =
            inl "from_timestamp must be before to_timestamp") as Hrej.
  { unfold parseTimestampParams, parseTimestamp. cbv zeta.
    rewrite !bool_decide_eq_true_2 by done. simpl.
    rewrite Hrf, Hrt, Hpf, Hpt. unfold mret, M_ret, validate_range. simpl.
    rewrite After_lt, !time_Unix_small by lia.
    rewrite bool_decide_eq_true_2; [done | lia]. }
  split; [done |]. by eapply rejected_before_io.
Qed.

(** An answer 200 of [collectIstioMetricsHandler] tells what was asked:
    it names the two ends of the range exactly when a range passed
    validation (both or none, as formatted times), and it names the
    configured window exactly when the request gave no timestamp. *)
Theorem collect_reports_range s c w response :
  ResponseBody (collectIstioMetricsHandler s c w).1 = CollectBody response →
  ∃ fromTimestamp toTimestamp,
    (parseTimestampParams c (ocsConfig s) w).1 =
      inr (fromTimestamp, toTimestamp) ∧
    from_timestamp response = time_Format_RFC3339 <$> fromTimestamp ∧
    to_timestamp response = time_Format_RFC3339 <$> toTimestamp ∧
    time_window_minutes response =
      (if bool_decide (Query c "from_timestamp" = "" ∧
                       Query c "to_timestamp" = "")
       then TimeWindowMinutes (ocsConfig s) else None).
Proof.
  unfold collectIstioMetricsHandler.
  destruct (is_nil (Workload (ocsConfig s))); [done |].
  unfold mbind, M_bind.
  pose proof (parseTimestampParams_shape c (ocsConfig s) w) as Hshape.
  pose proof (parseTimestampParams_window_used c (ocsConfig s) w) as Hwin.
  destruct (parseTimestampParams c (ocsConfig s) w) as [[err|[f t]] w1];
    [done |].
  specialize (Hshape f t eq_refl) as [Hboth Hgiven].
  specialize (Hwin f t).
  destruct (QueryMetrics (Workload (ocsConfig s)) f t w1)
    as [[err|result] w2]; [done |].
  destruct (SaveAdjacencyList (ExtractAdjacencyList result) w2)
    as [[docID [err|]] w3]; [done |].
  unfold time_Now, mret, M_ret. simpl. intros [= <-]. simpl.
  exists f, t. split; [done |].
  destruct f as [f|], t as [t|]; simpl.
  - split_and!; try done.
    destruct (decide (Query c "from_timestamp" = "" ∧
                      Query c "to_timestamp" = "")) as [[Hf Ht]|Hno].
    + rewrite !bool_decide_eq_true_2 by done. simpl.
      by destruct (TimeWindowMinutes (ocsConfig s)).
    + rewrite (bool_decide_eq_false_2 _ Hno).
      destruct (TimeWindowMinutes (ocsConfig s)); [|done].
      destruct (bool_decide_reflect (Query c "from_timestamp" = ""));
        destruct (bool_decide_reflect (Query c "to_timestamp" = ""));
        simpl; try done. by destruct Hno.
  - by destruct (proj1 Hboth (mk_is_Some _ _ eq_refl)) as [? [=]].
  - by destruct (proj2 Hboth (mk_is_Some _ _ eq_refl)) as [? [=]].
  - split_and!; try done.
    destruct (decide (Query c "from_timestamp" = "" ∧
                      Query c "to_timestamp" = "")) as [[Hf Ht]|Hno].
    + rewrite bool_decide_eq_true_2 by done.
      destruct (TimeWindowMinutes (ocsConfig s)) as [minutes|]; [|done].
      destruct (proj2 (Hwin Hf Ht eq_refl)) as [? [=]]. by eexists.
    + by rewrite (bool_decide_eq_false_2 _ Hno).
Qed.

End service.

(** ** The context definitions, field by field *)

Section assembler_more.
Context `{!RangeOrder}.

Lemma reverseDeps_of_nil adjacencyList workload :
  reverseDeps_of adjacencyList workload = [] ↔
  ∀ source dests, adjacencyList !! source = Some dests → workload ∉ dests.
Proof.
  pose proof (reverseDeps_of_elem adjacencyList workload) as Helem. split.
  - intros Hnil source dests Hs Hw. rewrite Hnil in Helem.
    assert (source ∈ @nil string) as Hin by (apply Helem; by exists dests).
    by apply elem_of_nil in Hin.
  - intros Hno. destruct (reverseDeps_of adjacencyList workload)
      as [|source sources]; [done |].
    destruct (proj1 (Helem source)) as (dests & Hs & Hw); [left |].
    by destruct (Hno source dests).
Qed.

Lemma buildTopology_empty adjacencyList workload :
  buildTopology adjacencyList workload = ∅ ↔ isolated adjacencyList workload.
Proof.
  unfold isolated. rewrite <- reverseDeps_of_nil.
  unfold buildTopology, slice_at. cbv zeta.
  destruct (reverseDeps_of adjacencyList workload) as [|source sources];
    destruct (adjacencyList !! workload) as [[|dest dests]|]; simpl;
    split; try done; try (by intros [? ?]);
    by intros ?%insert_non_empty.
Qed.

Lemma buildTopology_fields adjacencyList workload field :
  is_Some (buildTopology adjacencyList workload !! field) →
  field = "dependencies" ∨ field = "dependents".
Proof.
  unfold buildTopology. cbv zeta.
  destruct (reverseDeps_of adjacencyList workload) as [|source sources];
    destruct (adjacencyList !! workload) as [[|dest dests]|]; simpl;
    rewrite ?lookup_insert_is_Some, ?lookup_empty;
    try (by intros [? [=]]); naive_solver.
Qed.

(** Every context definition carries the domain [compute.k8s] and the
    metric definitions and the policy of the configuration as they are.
    Its topology is left out exactly when its workload is isolated (no
    destination of its own, destination of no source), and a topology that
    is there has no field besides [dependencies] and [dependents]. *)
Theorem assemble_fields adjacencyList config :
  Forall
    (λ c : OCSContextDefinition,
       ∃ workload,
         ResourceID c = "workload-" +:+ workload ∧
         Domain c = "compute.k8s" ∧
         CtxMetrics c = Metrics config ∧
         CtxPolicy c = Policy config ∧
         (Topology c = None ↔ isolated adjacencyList workload) ∧
         ∀ topology field,
           Topology c = Some topology → is_Some (topology !! field) →
           field = "dependencies" ∨ field = "dependents")
    (buildContextDefinitions adjacencyList config).
Proof.
  rewrite buildContextDefinitions_fmap. apply Forall_fmap, Forall_forall.
  intros workload _. exists workload. simpl. split_and!; try done.
  - rewrite <- buildTopology_empty. case_bool_decide as Hsize.
    + split; [done |]. intros Hempty. rewrite Hempty, map_size_empty in Hsize.
      lia.
    + split; [|done]. intros _. apply map_size_empty_inv. lia.
  - intros topology field. case_bool_decide; [|done].
    intros [= <-]. apply buildTopology_fields.
Qed.

Lemma foldl_dependents_inner_eq (dests : list string) source workload
    (acc : list string) :
  foldl (λ (reverseDeps : list string) (dest : string),
           if bool_decide (dest = workload)
           then reverseDeps ++ [source] else reverseDeps) acc dests =
  acc ++ ((λ _, source) <$> filter (λ dest, dest = workload) dests).
Proof.
  revert acc. induction dests as [|dest dests IH]; intros acc; simpl.
  - by rewrite app_nil_r.
  - rewrite IH. case_bool_decide as Heq.
    + rewrite filter_cons_True by done. simpl. by rewrite <- app_assoc.
    + by rewrite filter_cons_False by done.
Qed.

Lemma foldl_dependents_eq (l : list (string * list string)) workload
    (acc : list string) :
  foldl (λ (reverseDeps : list string) (kv : string * list string),
           foldl (λ (reverseDeps : list string) (dest : string),
                    if bool_decide (dest = workload)
                    then reverseDeps ++ [kv.1] else reverseDeps)
                 reverseDeps kv.2) acc l =
  acc ++ (l ≫= λ kv : string * list string,
            (λ _, kv.1) <$> filter (λ dest, dest = workload) kv.2).
Proof.
  revert acc. induction l as [|kv l IH]; intros acc; cbn [foldl].
  - by rewrite app_nil_r.
  - rewrite IH, foldl_dependents_inner_eq, bind_cons. by rewrite <- app_assoc.
Qed.

Lemma NoDup_all_equal (l : list string) (x : string) :
  NoDup l → (∀ y, y ∈ l → y = x) → length l ≤ 1.
Proof.
  intros Hnd Hall. destruct l as [|a [|b l]]; simpl; [lia | lia |].
  exfalso. apply NoDup_cons in Hnd as [Hnotin _].
  apply Hnotin. rewrite (Hall a) by left.
  rewrite <- (Hall b) by (right; left). left.
Qed.

(** Each source is listed once among the dependents of a workload when no
    destination list of the mapping repeats an element. *)
Lemma reverseDeps_of_NoDup adjacencyList workload :
  (∀ source, NoDup (slice_at adjacencyList source)) →
  NoDup (reverseDeps_of adjacencyList workload).
Proof.
  intros Hnd. unfold reverseDeps_of. rewrite foldl_dependents_eq. simpl.
  apply NoDup_bind.
  - intros [k1 ds1] [k2 ds2] y H1%elem_of_go_range H2%elem_of_go_range.
    simpl. intros (? & -> & _)%list_elem_of_fmap.
    intros (? & <- & _)%list_elem_of_fmap. congruence.
  - intros [k ds] Hkv%elem_of_go_range. simpl.
    assert (length (filter (λ dest, dest = workload) ds) ≤ 1) as Hlen.
    { apply (NoDup_all_equal _ workload).
      - apply NoDup_filter. specialize (Hnd k). unfold slice_at in Hnd.
        by rewrite Hkv in Hnd.
      - by intros y [? _]%list_elem_of_filter. }
    destruct (filter (λ dest, dest = workload) ds) as [|a [|b l]];
      simpl in *; [constructor | apply NoDup_singleton | lia].
  - rewrite (go_range_perm _ adjacencyList). apply NoDup_map_to_list.
Qed.

(** Extract, then assemble. In the context definitions built from an
    extracted mapping no workload is listed twice, neither among the
    dependencies nor among the dependents of a workload. *)
Theorem assemble_extracted_no_repeats result config :
  Forall
    (λ c : OCSContextDefinition,
       NoDup (default [] (dependencies_of c)) ∧
       NoDup (default [] (dependents_of c)))
    (buildContextDefinitions (ExtractAdjacencyList result) config).
Proof.
  assert (∀ source, NoDup (slice_at (ExtractAdjacencyList result) source))
    as Hnd.
  { apply foldl_extract_NoDup. intros s. rewrite slice_at_empty. constructor. }
  rewrite buildContextDefinitions_fmap. apply Forall_fmap, Forall_forall.
  intros workload _. simpl. unfold dependencies_of, dependents_of.
  rewrite !contextDef_of_field.
  rewrite buildTopology_dependencies, buildTopology_dependents. split.
  - specialize (Hnd workload). unfold slice_at in Hnd.
    destruct (ExtractAdjacencyList result !! workload) as [[|d ds]|];
      simpl in *; try done; constructor.
  - pose proof (reverseDeps_of_NoDup _ workload Hnd) as Hrev.
    destruct (reverseDeps_of (ExtractAdjacencyList result) workload);
      simpl; [constructor | done].
Qed.

End assembler_more.

(** * The further theorems on concrete inputs *)

Lemma extract_absorbs_repeats_witness :
  [edge_sample "app" "db"; unlabelled_sample] ⊆ Result sample_result ++ [unlabelled_sample] ∧
  ExtractAdjacencyList
    {| Status := "success"; ResultType := "vector";
       Result := (Result sample_result ++ [unlabelled_sample]) ++
                 [edge_sample "app" "db"; unlabelled_sample] |} =
  ExtractAdjacencyList
    {| Status := "success"; ResultType := "vector";
       Result := Result sample_result ++ [unlabelled_sample] |}.
Proof.
  assert ([edge_sample "app" "db"; unlabelled_sample]
            ⊆ Result sample_result ++ [unlabelled_sample]) as Hsub.
  { intros x Hx. apply elem_of_cons in Hx as [->|Hx].
    - simpl. left.
    - apply list_elem_of_singleton in Hx as ->. simpl.
      do 4 right. left. }
  split; [exact Hsub |].
  exact (extract_absorbs_repeats "success" "vector"
           (Result sample_result ++ [unlabelled_sample])
           [edge_sample "app" "db"; unlabelled_sample] Hsub).
Defined.

Lemma extract_drops_empty_label_witness :
  label (Metric empty_source_sample) "source_workload" = "" ∧
  ExtractAdjacencyList
    {| Status := "success"; ResultType := "vector";
       Result := [edge_sample "app" "db"] ++
                 empty_source_sample :: [edge_sample "proxy" "app"] |} =
  ExtractAdjacencyList
    {| Status := "success"; ResultType := "vector";
       Result := [edge_sample "app" "db"] ++ [edge_sample "proxy" "app"] |}.
Proof.
  assert (label (Metric empty_source_sample) "source_workload" = "") as Hempty
    by (vm_compute; reflexivity).
  split; [exact Hempty |].
  exact (extract_drops_empty_label "success" "vector" [edge_sample "app" "db"]
           empty_source_sample [edge_sample "proxy" "app"] (or_introl Hempty)).
Defined.

Lemma convert_ignores_values_witness :
  RMetric <$> RResult ranged_response =
    RMetric <$> RResult ranged_response_later ∧
  @convertRangeToInstantResult trie_order (calm_env 1000000000 0)
    ranged_response empty_world =
  @convertRangeToInstantResult trie_order (calm_env 1000000000 0)
    ranged_response_later empty_world.
Proof.
  split; [reflexivity |].
  exact (@convert_ignores_values trie_order (calm_env 1000000000 0)
           ranged_response ranged_response_later empty_world
           eq_refl eq_refl).
Defined.

Lemma convert_one_entry_per_label_set_witness :
  NoDup (Metric <$> Result (@convertRangeToInstantResult trie_order
                              (calm_env 1000000000 0)
                              ranged_response empty_world).1) ∧
  ∀ labels,
    labels ∈ Metric <$> Result (@convertRangeToInstantResult trie_order
                                  (calm_env 1000000000 0)
                                  ranged_response empty_world).1 ↔
    ∃ r, r ∈ RResult ranged_response ∧ RMetric r = labels.
Proof.
  refine (@convert_one_entry_per_label_set trie_order (calm_env 1000000000 0)
            ranged_response empty_world _).
  intros r r' Hr Hr' Hkey. simpl in Hr, Hr'.
  apply elem_of_cons in Hr as [->|Hr];
    [|apply list_elem_of_singleton in Hr as ->];
    (apply elem_of_cons in Hr' as [->|Hr'];
       [|apply list_elem_of_singleton in Hr' as ->]);
    try reflexivity; vm_compute in Hkey; discriminate Hkey.
Defined.

Lemma QueryMetrics_success_witness :
  (@QueryMetrics trie_order (calm_env 1000000000 0) ["app"] None None
     empty_world).1 = inr sample_result ∧
  ["app"] ≠ [] ∧
  Status sample_result = "success" ∧
  ∃ body,
    @env_prometheus_instant (calm_env 1000000000 0)
      (length (trace empty_world)) (istio_query ["app"]) =
      Replied 200 body (inr sample_result).
Proof.
  assert ((@QueryMetrics trie_order (calm_env 1000000000 0) ["app"] None None
             empty_world).1 = inr sample_result) as Hres by reflexivity.
  split; [exact Hres |].
  exact (@QueryMetrics_success trie_order (calm_env 1000000000 0) ["app"]
           None None empty_world sample_result Hres).
Defined.

Lemma collect_snapshot_well_formed_witness :
  let doc :=
    @new_document trie_order 1%N 1700000000000000000%Z
      (ExtractAdjacencyList sample_result) in
  collection
    (@collectIstioMetricsHandler trie_order small_lib (calm_env 1000000000 0)
       sample_server ∅ empty_world).2 = collection empty_world ++ [doc] ∧
  (∀ source dests,
     AdjacencyList doc !! source = Some dests → dests ≠ [] ∧ NoDup dests) ∧
  TotalConnections doc =
    Z.of_nat (sum_list_with (λ source, length (slice_at (AdjacencyList doc) source))
                (elements (dom (AdjacencyList doc)))) ∧
  SourceCount doc = Z.of_nat (size (dom (AdjacencyList doc))).
Proof.
  cbv zeta.
  assert (collection
            (@collectIstioMetricsHandler trie_order small_lib
               (calm_env 1000000000 0) sample_server ∅ empty_world).2 =
          collection empty_world ++
          [@new_document trie_order 1%N 1700000000000000000%Z
             (ExtractAdjacencyList sample_result)]) as Hcoll
    by (vm_compute; reflexivity).
  split; [exact Hcoll |].
  exact (@collect_snapshot_well_formed trie_order small_lib
           (calm_env 1000000000 0) sample_server ∅ empty_world _ Hcoll).
Defined.

Lemma collect_then_prompt_witness :
  StatusCode
    (@collectIstioMetricsHandler trie_order small_lib (calm_env 1000000000 0)
       sample_server ∅ empty_world).1 = StatusOK ∧
  ∃ response,
    ResponseBody
      (@collectIstioMetricsHandler trie_order small_lib (calm_env 1000000000 0)
         sample_server ∅ empty_world).1 = CollectBody response ∧
    (@getOCSPromptHandler trie_order (calm_env 1000000000 0) sample_server
       (@collectIstioMetricsHandler trie_order small_lib
          (calm_env 1000000000 0) sample_server ∅ empty_world).2).1 =
      {| StatusCode := StatusOK;
         ResponseBody :=
           PromptBody
             {| SpecVersion := "0.1";
                ContextDefinitions :=
                  @buildContextDefinitions trie_order (adjacency_list response)
                    (ocsConfig sample_server) |} |}.
Proof.
  assert (StatusCode
            (@collectIstioMetricsHandler trie_order small_lib
               (calm_env 1000000000 0) sample_server ∅ empty_world).1 =
          StatusOK) as Hstatus by (vm_compute; reflexivity).
  split; [exact Hstatus |].
  refine (@collect_then_prompt trie_order small_lib (calm_env 1000000000 0)
            sample_server ∅ empty_world Hstatus _ eq_refl).
  intros d doc Hd. apply elem_of_nil in Hd. destruct Hd.
Defined.

Lemma parseTimestampParams_accepts_witness :
  (@parseTimestampParams small_lib (calm_env 1000000000 0) unix_request
     sample_config empty_world).1 =
    inr (Some 1704067200000000000%Z, Some 1704153600000000000%Z) ∧
  (is_Some (Some 1704067200000000000%Z) ↔
   is_Some (Some 1704153600000000000%Z)) ∧
  (Query unix_request "from_timestamp" ≠ "" ∨
   Query unix_request "to_timestamp" ≠ "" →
   ∃ fromTime toTime,
     Query unix_request "from_timestamp" ≠ "" ∧
     Query unix_request "to_timestamp" ≠ "" ∧
     @parseTimestamp small_lib (Query unix_request "from_timestamp") =
       inr fromTime ∧
     @parseTimestamp small_lib (Query unix_request "to_timestamp") =
       inr toTime ∧
     Some 1704067200000000000%Z = Some fromTime ∧
     Some 1704153600000000000%Z = Some toTime ∧
     After fromTime toTime = false ∧ (fromTime ≤ toTime)%Z).
Proof.
  assert ((@parseTimestampParams small_lib (calm_env 1000000000 0)
             unix_request sample_config empty_world).1 =
          inr (Some 1704067200000000000%Z, Some 1704153600000000000%Z))
    as Hres by (vm_compute; reflexivity).
  split; [exact Hres |].
  exact (@parseTimestampParams_accepts small_lib (calm_env 1000000000 0)
           unix_request sample_config empty_world _ _ Hres).
Defined.

Lemma parseTimestampParams_window_witness :
  (@parseTimestampParams small_lib (calm_env 1000000000 0) ∅ window_config
     empty_world).1 =
    inr (Some (1700000000000000000 - 5 * 60000000000)%Z,
         Some 1700000000000000000%Z).
Proof.
  refine (@parseTimestampParams_window small_lib (calm_env 1000000000 0) ∅
            window_config empty_world eq_refl eq_refl _).
  split; reflexivity.
Defined.

Lemma collect_unix_range_query_witness :
  ∃ rest,
    trace
      (@collectIstioMetricsHandler trie_order small_lib (calm_env 1000000000 0)
         sample_server unix_request empty_world).2 =
      trace empty_world ++
      PrometheusQueryRange (istio_query (Workload (ocsConfig sample_server)))
        1704067200 1704153600 "15s" :: rest.
Proof.
  refine (@collect_unix_range_query trie_order small_lib (calm_env 1000000000 0)
            sample_server unix_request empty_world 1704067200 1704153600
            _ _ _ eq_refl eq_refl eq_refl eq_refl _ _ _).
  - discriminate.
  - vm_compute. discriminate.
  - vm_compute. discriminate.
  - lia.
  - lia.
  - lia.
Defined.

Lemma collect_reports_range_witness :
  ResponseBody
    (@collectIstioMetricsHandler trie_order small_lib (calm_env 1000000000 0)
       sample_server ∅ empty_world).1 = CollectBody calm_collect_response ∧
  ∃ fromTimestamp toTimestamp,
    (@parseTimestampParams small_lib (calm_env 1000000000 0) ∅
       (ocsConfig sample_server) empty_world).1 =
      inr (fromTimestamp, toTimestamp) ∧
    from_timestamp calm_collect_response =
      @time_Format_RFC3339 small_lib <$> fromTimestamp ∧
    to_timestamp calm_collect_response =
      @time_Format_RFC3339 small_lib <$> toTimestamp ∧
    time_window_minutes calm_collect_response =
      (if bool_decide (Query ∅ "from_timestamp" = "" ∧
                       Query ∅ "to_timestamp" = "")
       then TimeWindowMinutes (ocsConfig sample_server) else None).
Proof.
  assert (ResponseBody
            (@collectIstioMetricsHandler trie_order small_lib
               (calm_env 1000000000 0) sample_server ∅ empty_world).1 =
          CollectBody calm_collect_response) as Hbody
    by (vm_compute; reflexivity).
  split; [exact Hbody |].
  exact (@collect_reports_range trie_order small_lib (calm_env 1000000000 0)
           sample_server ∅ empty_world calm_collect_response Hbody).
Defined.


Lemma inverted_range_accepted_on_wrap_witness :
  After (time_Unix 9223372036854775807) (time_Unix 0) = false ∧
  (@parseTimestampParams small_lib (calm_env 1000000000 0) overflow_request
     (ocsConfig sample_server) empty_world).1 =
    inr (Some (time_Unix 9223372036854775807), Some (time_Unix 0)) ∧
  StatusCode
    (@collectIstioMetricsHandler trie_order small_lib (calm_env 1000000000 0)
       sample_server overflow_request empty_world).1 ≠ StatusBadRequest ∧
  ∃ rest,
    trace
      (@collectIstioMetricsHandler trie_order small_lib (calm_env 1000000000 0)
         sample_server overflow_request empty_world).2 =
      trace empty_world ++
      PrometheusQueryRange (istio_query (Workload (ocsConfig sample_server)))
        9223372036854775807 0 "15s" :: rest.
Proof.
  refine (@inverted_range_accepted_on_wrap trie_order small_lib
            (calm_env 1000000000 0) sample_server empty_world
            _ eq_refl eq_refl eq_refl eq_refl).
  discriminate.
Defined.

(** In the calm world the request [overflow_request] is answered 200,
    after the range query from 9223372036854775807 to 0 and an
    insertion. *)
Example overflow_request_answered :
  StatusCode
    (@collectIstioMetricsHandler trie_order small_lib (calm_env 1000000000 0)
       sample_server overflow_request empty_world).1 = StatusOK ∧
  trace
    (@collectIstioMetricsHandler trie_order small_lib (calm_env 1000000000 0)
       sample_server overflow_request empty_world).2 =
    [PrometheusQueryRange (istio_query (Workload sample_config))
       9223372036854775807 0 "15s";
     MongoInsertOne
       (@new_document trie_order 1%N 1700000000000000000%Z ∅)].
Proof. split; vm_compute; reflexivity. Qed.

Lemma unix_inverted_range_rejected_witness :
  (@parseTimestampParams small_lib (calm_env 1000000000 0)
     unix_inverted_request (ocsConfig sample_server) empty_world).1 =
    inl "from_timestamp must be before to_timestamp" ∧
  StatusCode
    (@collectIstioMetricsHandler trie_order small_lib (calm_env 1000000000 0)
       sample_server unix_inverted_request empty_world).1 = StatusBadRequest ∧
  (∃ message,
     ResponseBody
       (@collectIstioMetricsHandler trie_order small_lib (calm_env 1000000000 0)
          sample_server unix_inverted_request empty_world).1 =
       ErrorBody message) ∧
  trace
    (@collectIstioMetricsHandler trie_order small_lib (calm_env 1000000000 0)
       sample_server unix_inverted_request empty_world).2 = trace empty_world ∧
  collection
    (@collectIstioMetricsHandler trie_order small_lib (calm_env 1000000000 0)
       sample_server unix_inverted_request empty_world).2 =
    collection empty_world.
Proof.
  refine (@unix_inverted_range_rejected trie_order small_lib
            (calm_env 1000000000 0) sample_server unix_inverted_request
            empty_world 1704153600 1704067200
            _ _ eq_refl eq_refl eq_refl eq_refl _ _ _).
  - vm_compute. discriminate.
  - vm_compute. discriminate.
  - lia.
  - lia.
  - lia.
Defined.
